(** * long-cloud-run: the command supervisor of [main.go]

    A shallow embedding of [main.go]: the [Command] value built by
    [NewCommand], the event loop of [Command.Run] and the HTTP [handler].

    The Go runtime and the operating system are the environment.  Every
    answer the program obtains from them (the result of [cmd.StdoutPipe],
    of [cmd.Start], of [cmd.Process.Kill], the readings of [time.Now], the
    value received by each arm of the [select]) is an input of the model;
    every effect of the program on them (a line written to the response, a
    log record, a call of [Start], [Kill] or [Stop]) is recorded in a
    [World] that is threaded through the functions. *)

From Stdlib Require Import ZArith List String Ascii Bool Lia.
Import ListNotations.

Open Scope string_scope.
Open Scope Z_scope.

(** ** Decimal rendering, as [fmt] and [time] do it *)

Module strconv.

Definition digit (d : Z) : ascii := ascii_of_N (Z.to_N (48 + d)).

(** The loop [for v > 0 { w--; buf[w] = byte(v%10) + '0'; v /= 10 }]:
    digits are laid down from the end of the buffer towards its start,
    so [buf] is the part of the buffer already filled. *)
Fixpoint fmtDigits (fuel : nat) (v : Z) (buf : string) : string :=
  match fuel with
  | O => buf
  | S fuel' =>
      if 0 <? v
      then fmtDigits fuel' (v / 10) (String (digit (v mod 10)) buf)
      else buf
  end.

(** [time.fmtInt]: a [uint64] has at most twenty decimal digits. *)
Definition fmtInt (v : Z) (buf : string) : string :=
  if v =? 0 then String "0" buf else fmtDigits 20 v buf.

(** [%d] of an [int]. *)
Definition Itoa (i : Z) : string :=
  if i <? 0 then String "-" (fmtInt (- i) "") else fmtInt i "".

(** Reading a decimal numeral back, to say that a rendering names one
    number only. *)
Definition digitValue (a : ascii) : Z := Z.of_N (N_of_ascii a) - 48.

Fixpoint parseDigits (s : string) (acc : Z) : Z :=
  match s with
  | EmptyString => acc
  | String a rest => parseDigits rest (10 * acc + digitValue a)
  end.

Definition Atoi (s : string) : Z :=
  match s with
  | EmptyString => 0
  | String a rest =>
      if Ascii.eqb a "-" then - parseDigits rest 0 else parseDigits s 0
  end.

End strconv.

(** ** Package [time]: durations are [int64] nanosecond counts *)

Module time.

Definition Duration := Z.
Definition Time := Z.  (* an instant, in nanoseconds on the process clock *)

Definition Nanosecond : Duration := 1.
Definition Microsecond : Duration := 1000 * Nanosecond.
Definition Millisecond : Duration := 1000 * Microsecond.
Definition Second : Duration := 1000 * Millisecond.
Definition Minute : Duration := 60 * Second.
Definition Hour : Duration := 60 * Minute.

Definition minDuration : Duration := - 2 ^ 63.
Definition maxDuration : Duration := 2 ^ 63 - 1.

(** [t.Sub(u)]: the difference, saturated at the ends of [int64]. *)
Definition Sub (t u : Time) : Duration :=
  let d := t - u in
  if d <? minDuration then minDuration
  else if maxDuration <? d then maxDuration
  else d.

(** [d.Truncate(m)]: [if m <= 0 { return d }; return d - d%m], where
    [%] is Go's remainder, which truncates towards zero. *)
Definition Truncate (d m : Duration) : Duration :=
  if m <=? 0 then d else d - Z.rem d m.

(** [fmtFrac]: the last [prec] decimal digits of [v], trailing zeros
    and a bare decimal point omitted; returns the buffer and [v/10^prec]. *)
Fixpoint fmtFracLoop (prec : nat) (v : Z) (print : bool) (buf : string)
  : string * Z * bool :=
  match prec with
  | O => (buf, v, print)
  | S prec' =>
      let d := v mod 10 in
      let print' := print || negb (d =? 0) in
      let buf' := if print' then String (strconv.digit d) buf else buf in
      fmtFracLoop prec' (v / 10) print' buf'
  end.

Definition fmtFrac (buf : string) (v : Z) (prec : nat) : string * Z :=
  let '(buf', v', print) := fmtFracLoop prec v false buf in
  (if print then String "." buf' else buf', v').

(** The two bytes of U+00B5, the micro sign. *)
Definition micro : string :=
  String (ascii_of_nat 194) (String (ascii_of_nat 181) "").

(** [d.String()], as in [Duration.format]. *)
Definition String_ (d : Duration) : string :=
  let u := Z.abs d in
  let neg := d <? 0 in
  let body :=
    if u <? Second then
      if u =? 0 then "0s"
      else if u <? Microsecond then
        let '(b, u') := fmtFrac "ns" u 0 in strconv.fmtInt u' b
      else if u <? Millisecond then
        let '(b, u') := fmtFrac (micro ++ "s") u 3 in strconv.fmtInt u' b
      else
        let '(b, u') := fmtFrac "ms" u 6 in strconv.fmtInt u' b
    else
      let '(b, u1) := fmtFrac "s" u 9 in
      let b1 := strconv.fmtInt (u1 mod 60) b in
      let u2 := u1 / 60 in
      if 0 <? u2 then
        let b2 := strconv.fmtInt (u2 mod 60) (String "m" b1) in
        let u3 := u2 / 60 in
        if 0 <? u3 then strconv.fmtInt u3 (String "h" b2) else b2
      else b1
  in
  if neg then String "-" body else body.

End time.

(** ** Package [syscall]: the wait status of a Unix process *)

Module syscall.

Definition WaitStatus := Z.  (* uint32 *)

Definition mask : Z := 127.
Definition shift : Z := 8.
Definition exited : Z := 0.

Definition Exited (w : WaitStatus) : bool := Z.land w mask =? exited.

Definition ExitStatus (w : WaitStatus) : Z :=
  if Exited w then Z.land (Z.shiftr w shift) 255 else (-1).

End syscall.

(** ** The world outside the program *)

(** A record of [c.StdoutLogger].  The header every logger puts before a
    record (the prefix ["[name] "], the date and the time) is the same
    for all records and is left out; [%+q] of the argument list is kept
    unrendered. *)
Inductive LogRecord :=
| LogText (s : string)
| LogRunningAs (name : string) (args : list string).

Record World := mkWorld {
  resp_status : option Z;              (* set by the first WriteHeader *)
  resp_header : list (string * string);
    (* the header map w.Header(), as the handler set it; once resp_status
       is set the header block is out and the map no longer counts.  What
       net/http adds by itself to the block of a response written to
       before it was committed is not recorded here *)
  resp_body : list string;             (* lines written to the response *)
  resp_flushes : nat;
  stderr_log : list string;            (* c.StderrLogger *)
  stdout_log : list LogRecord;         (* c.StdoutLogger *)
  std_log : list string;               (* the logger of package log *)
  starts : nat;                        (* calls of cmd.Start *)
  kills : nat;                         (* calls of cmd.Process.Kill *)
  ticker_stops : nat                   (* calls of pollTimer.Stop *)
}.

Definition world0 : World := mkWorld None [] [] 0 [] [] [] 0 0 0.

Section WorldUpdates.

Variable w : World.

(** [w.WriteHeader(code)]: only the first call counts. *)
Definition WriteHeader (code : Z) : World :=
  mkWorld (match resp_status w with None => Some code | s => s end)
    (resp_header w) (resp_body w) (resp_flushes w) (stderr_log w)
    (stdout_log w) (std_log w) (starts w) (kills w) (ticker_stops w).

(** [w.Header().Set(k, v)]. *)
Definition Header_Set (k v : string) : World :=
  mkWorld (resp_status w)
    ((k, v) :: filter (fun kv => negb (String.eqb (fst kv) k)) (resp_header w))
    (resp_body w) (resp_flushes w) (stderr_log w)
    (stdout_log w) (std_log w) (starts w) (kills w) (ticker_stops w).

(** [fmt.Fprintln(w, line)]: a write before any WriteHeader sends 200. *)
Definition Fprintln (line : string) : World :=
  mkWorld (match resp_status w with None => Some 200 | s => s end)
    (resp_header w) (resp_body w ++ [line])%list (resp_flushes w)
    (stderr_log w) (stdout_log w) (std_log w) (starts w) (kills w)
    (ticker_stops w).

Definition Flush : World :=
  mkWorld (resp_status w) (resp_header w) (resp_body w)
    (S (resp_flushes w)) (stderr_log w) (stdout_log w) (std_log w)
    (starts w) (kills w) (ticker_stops w).

Definition StderrLogger_Println (line : string) : World :=
  mkWorld (resp_status w) (resp_header w) (resp_body w) (resp_flushes w)
    (stderr_log w ++ [line])%list (stdout_log w) (std_log w)
    (starts w) (kills w) (ticker_stops w).

Definition StdoutLogger_Printf (r : LogRecord) : World :=
  mkWorld (resp_status w) (resp_header w) (resp_body w) (resp_flushes w)
    (stderr_log w) (stdout_log w ++ [r])%list (std_log w)
    (starts w) (kills w) (ticker_stops w).

Definition log_Print (line : string) : World :=
  mkWorld (resp_status w) (resp_header w) (resp_body w) (resp_flushes w)
    (stderr_log w) (stdout_log w) (std_log w ++ [line])%list
    (starts w) (kills w) (ticker_stops w).

Definition cmd_Start : World :=
  mkWorld (resp_status w) (resp_header w) (resp_body w) (resp_flushes w)
    (stderr_log w) (stdout_log w) (std_log w)
    (S (starts w)) (kills w) (ticker_stops w).

Definition Process_Kill : World :=
  mkWorld (resp_status w) (resp_header w) (resp_body w) (resp_flushes w)
    (stderr_log w) (stdout_log w) (std_log w)
    (starts w) (S (kills w)) (ticker_stops w).

Definition pollTimer_Stop : World :=
  mkWorld (resp_status w) (resp_header w) (resp_body w) (resp_flushes w)
    (stderr_log w) (stdout_log w) (std_log w)
    (starts w) (kills w) (S (ticker_stops w)).

End WorldUpdates.

(** [http.Error(w, msg, code)]. *)
Definition http_Error (w : World) (msg : string) (code : Z) : World :=
  Fprintln
    (WriteHeader
       (Header_Set
          (Header_Set w "Content-Type" "text/plain; charset=utf-8")
          "X-Content-Type-Options" "nosniff")
       code)
    msg.

Definition StatusOK : Z := 200.
Definition StatusBadRequest : Z := 400.

(** ** The command *)

(** The fields of [Command] that are data.  [Request], [Response],
    [Flusher] and the two loggers are handles on the world: the calls made
    through them act on the [World]. *)
Record Command := mkCommand {
  Name : string;
  Args : list string;
  ShowOutput : bool;
  CanFail : bool;
  AllowedExitCodes : list Z
}.

Definition NewCommand (name : string) (args : list string) : Command :=
  {| Name := name;
     Args := args;
     ShowOutput := true;
     CanFail := false;
     AllowedExitCodes := [0] |}.

Definition writeProgress (message : string) (w : World) : World :=
  Flush (Fprintln (StderrLogger_Println w message) message).

(** The error [cmd.Wait] sends on [done]: an [*exec.ExitError], whose
    [Sys()] is a [syscall.WaitStatus] or is not, or some other error.
    [msg] is the text of [err.Error()]. *)
Inductive WaitError :=
| ExitError (msg : string) (sys : option syscall.WaitStatus)
| OtherError (msg : string).

Definition WaitError_Error (e : WaitError) : string :=
  match e with
  | ExitError msg _ => msg
  | OtherError msg => msg
  end.

(** The errors [Run] returns, one constructor for each [fmt.Errorf]. *)
Inductive RunError :=
| ErrStdoutPipe (cause : string)
| ErrStderrPipe (cause : string)
| ErrStart (cause : string)
| ErrTerminate (cause : string)
| ErrExitStatus (commandDuration : string) (status : Z)
| ErrFailed (commandDuration : string) (cause : string).

(** [err.Error()]. *)
Definition Error (e : RunError) : string :=
  match e with
  | ErrStdoutPipe cause => "error getting stdout pipe: " ++ cause
  | ErrStderrPipe cause => "error getting stderr pipe: " ++ cause
  | ErrStart cause => "error starting command: " ++ cause
  | ErrTerminate cause => "Failed to terminate command: " ++ cause
  | ErrExitStatus d status =>
      "Command exited with status code in " ++ d ++ ": " ++ strconv.Itoa status
  | ErrFailed d cause => "Command failed in " ++ d ++ ": " ++ cause
  end.

(** What one turn of the [select] receives, with the answers of the
    environment while the turn is handled. *)
Inductive Event :=
| Output (line : string)
    (* line := <-output *)
| Tick (tickYear : Z) (now : time.Time) (killErr : option string)
       (now' : time.Time)
    (* tick := <-pollTimer.C with tick.Year() = tickYear; time.Now() reads
       now; cmd.Process.Kill(), if called, returns killErr; a second
       time.Now(), if called, reads now' *)
| Done (err : option WaitError) (now : time.Time).
    (* err := <-done; time.Now() reads now *)

(** The variables of the loop. *)
Record LoopState := mkLoop {
  processTerminated : bool;
  lastIntervalTime : time.Time;
  world : World
}.

(** One turn of the loop either goes on or returns. *)
Inductive Turn :=
| Continue (st : LoopState)
| Return (err : option RunError) (w : World).

(** [b.MaxElapsedTime = 60 * time.Minute]. *)
Definition MaxElapsedTime : time.Duration := 60 * time.Minute.

Definition timedOutLine (c : Command) : string :=
  "Command timed out in "
    ++ time.String_ (time.Truncate MaxElapsedTime time.Minute)
    ++ ": " ++ Name c.

Definition stillWaitingLine (c : Command) (elapsed : time.Duration) : string :=
  "[Still waiting for command to complete: " ++ Name c ++ " --- "
    ++ time.String_ (time.Truncate elapsed time.Second) ++ "]".

Definition completedLine (c : Command) (commandDuration : string) : string :=
  "Command completed in " ++ commandDuration ++ ": " ++ Name c.

(** [for _, exitcode := range c.AllowedExitCodes { if status == exitcode ... }] *)
Fixpoint isAllowed (status : Z) (codes : list Z) : bool :=
  match codes with
  | [] => false
  | exitcode :: rest => if status =? exitcode then true else isAllowed status rest
  end.

(** The arm [case err := <-done]. *)
Definition onDone (c : Command) (startTime : time.Time)
  (err : option WaitError) (endTime : time.Time) (w : World) : Turn :=
  let w := pollTimer_Stop w in
  let commandDuration :=
    time.String_ (time.Truncate (time.Sub endTime startTime) time.Second) in
  match err with
  | Some e =>
      if CanFail c then
        Return None
          (StdoutLogger_Printf w
             (LogText ("Warning, command failed (ignoring error) in "
                         ++ commandDuration ++ ": " ++ WaitError_Error e)))
      else
        match e with
        | ExitError _ (Some status) =>
            if isAllowed (syscall.ExitStatus status) (AllowedExitCodes c) then
              Return None
                (StdoutLogger_Printf w
                   (LogText ("Command completed with allowed status code in "
                               ++ commandDuration ++ ": "
                               ++ strconv.Itoa (syscall.ExitStatus status))))
            else
              Return
                (Some (ErrExitStatus commandDuration (syscall.ExitStatus status)))
                w
        | _ => Return (Some (ErrFailed commandDuration (WaitError_Error e))) w
        end
  | None =>
      Return None (writeProgress (completedLine c commandDuration) w)
  end.

(** One turn of [for { select { ... } }]. *)
Definition step (c : Command) (startTime : time.Time) (st : LoopState)
  (ev : Event) : Turn :=
  let w := world st in
  match ev with
  | Output line =>
      Continue
        (mkLoop (processTerminated st) (lastIntervalTime st)
           (if ShowOutput c then writeProgress line w
            else StderrLogger_Println w line))
  | Tick tickYear intervalTime killErr now' =>
      if tickYear =? 1 then
        if negb (processTerminated st) then
          let w := Process_Kill (pollTimer_Stop w) in
          match killErr with
          | Some e => Return (Some (ErrTerminate e)) w
          | None =>
              Continue
                (mkLoop true (lastIntervalTime st)
                   (writeProgress (timedOutLine c) w))
          end
        else Continue st
      else
        if time.Second <? time.Sub intervalTime (lastIntervalTime st) then
          Continue
            (mkLoop (processTerminated st) now'
               (writeProgress
                  (stillWaitingLine c (time.Sub intervalTime startTime)) w))
        else Continue st
  | Done err endTime => onDone c startTime err endTime w
  end.

(** How a call of [Run] ends: it returns nil or an error, or the events
    the scheduler delivers run out and the [select] waits. *)
Inductive Ending :=
| Returned (err : option RunError)
| Waiting.

Fixpoint loop (c : Command) (startTime : time.Time) (st : LoopState)
  (events : list Event) : Ending * World :=
  match events with
  | [] => (Waiting, world st)
  | ev :: rest =>
      match step c startTime st ev with
      | Continue st' => loop c startTime st' rest
      | Return err w => (Returned err, w)
      end
  end.

(** The answers of the environment to one call of [Run]. *)
Record RunEnv := mkRunEnv {
  StdoutPipe_err : option string;
  StderrPipe_err : option string;
  startTime_now : time.Time;      (* time.Now() before cmd.Start *)
  Start_err : option string;
  loopStart_now : time.Time;      (* time.Now() before the loop *)
  events : list Event
}.

Definition Run (c : Command) (env : RunEnv) (w : World) : Ending * World :=
  let w := writeProgress ("Running command: " ++ Name c) w in
  let w := StdoutLogger_Printf w (LogRunningAs (Name c) (Args c)) in
  match StdoutPipe_err env with
  | Some e => (Returned (Some (ErrStdoutPipe e)), w)
  | None =>
      match StderrPipe_err env with
      | Some e => (Returned (Some (ErrStderrPipe e)), w)
      | None =>
          let startTime := startTime_now env in
          let w := cmd_Start w in
          match Start_err env with
          | Some e => (Returned (Some (ErrStart e)), w)
          | None =>
              loop c startTime (mkLoop false (loopStart_now env) w) (events env)
          end
      end
  end.

(** ** The handler *)

(** The goroutine [handler] starts waits for the context of the request
    to be done and then writes one record to the log of the process.
    Where that record falls among the records [handler] writes itself
    is the scheduler's choice: before the record about the body, after
    the body was judged (any time up to the end of the run), or between
    the record of [log.Fatal] and the exit of the process. *)
Inductive ClosePoint :=
| AtSpawn
| AfterBody
| AfterFatal.

Definition ClosePoint_eqb (p q : ClosePoint) : bool :=
  match p, q with
  | AtSpawn, AtSpawn | AfterBody, AfterBody | AfterFatal, AfterFatal => true
  | _, _ => false
  end.

(** The answers of the environment to one call of [handler]. *)
Record HandlerEnv := mkHandlerEnv {
  os_Args : list string;
  w_is_Flusher : bool;                       (* w.(http.Flusher) *)
  ReadAll : string + string;                 (* body, or the read error *)
  json_Unmarshal : string -> option string;  (* the parse error, if any *)
  ctx_Done : option ClosePoint;
    (* when r.Context() is done during the call, if it is: the client
       closed the connection *)
  run_env : RunEnv
}.

(** The goroutine's [log.Println], if it is at point [p] that it runs. *)
Definition ctxDone (env : HandlerEnv) (p : ClosePoint) (w : World) : World :=
  match ctx_Done env with
  | Some q =>
      if ClosePoint_eqb p q then
        log_Print w "Client closed connection, command terminating."
      else w
  | None => w
  end.

(** How a call of [handler] ends.  [Fatal] is [log.Fatal]: the record is
    logged and the process exits with status 1. *)
Inductive Exit :=
| Finished
| Fatal
| Panicked   (* os.Args[1] with no such element *)
| Blocked.   (* Run is still waiting *)

(** The last part of [handler], from [w.Header().Set] on. *)
Definition serve (env : HandlerEnv) (w : World) : Exit * World * option Command :=
  let w := Header_Set w "Transfer-Encoding" "chunked" in
  let w := WriteHeader w StatusOK in
  let w := Flush w in
  let commandArgs :=
    if (2 <? List.length (os_Args env))%nat then skipn 2 (os_Args env) else [] in
  match nth_error (os_Args env) 1 with
  | None => (Panicked, w, None)
  | Some name =>
      let command := NewCommand name commandArgs in
      match Run command (run_env env) w with
      | (Returned (Some err), w') =>
          (Fatal, ctxDone env AfterFatal (log_Print w' (Error err)),
           Some command)
      | (Returned None, w') => (Finished, w', Some command)
      | (Waiting, w') => (Blocked, w', Some command)
      end
  end.

(** [handler]: how it ends, the world it leaves, and the command it ran,
    if it came to run one.  The record the goroutine writes when the
    context is done only after [handler] has returned falls outside the
    call. *)
Definition handler (env : HandlerEnv) (w : World) : Exit * World * option Command :=
  if (List.length (os_Args env) =? 1)%nat then
    (Fatal, log_Print w "No command to run set!", None)
  else if negb (w_is_Flusher env) then
    (Finished, http_Error w "Bad Request" StatusBadRequest, None)
  else
    let w := ctxDone env AtSpawn w in
    match ReadAll env with
    | inr e =>
        (Finished,
         http_Error
           (ctxDone env AfterBody
              (log_Print w ("Failed to read request body: " ++ e)))
           "Bad Request" StatusBadRequest,
         None)
    | inl body =>
        if (0 <? String.length body)%nat then
          match json_Unmarshal env body with
          | Some e =>
              (Finished,
               http_Error
                 (ctxDone env AfterBody
                    (log_Print w ("Failed to parse JSON body: " ++ e)))
                 "Bad Request" StatusBadRequest,
               None)
          | None => serve env (ctxDone env AfterBody w)
          end
        else
          serve env
            (ctxDone env AfterBody
               (log_Print w "Not a Pub/Sub invocation (no request body)."))
    end.

(** ** Runs that reach a given turn of the loop *)

(** The state the loop is in after it has handled [events] without
    returning; [None] if it returned on the way. *)
Fixpoint drain (c : Command) (startTime : time.Time) (st : LoopState)
  (events : list Event) : option LoopState :=
  match events with
  | [] => Some st
  | ev :: rest =>
      match step c startTime st ev with
      | Continue st' => drain c startTime st' rest
      | Return _ _ => None
      end
  end.

(** The pipes were obtained and the process was started. *)
Definition started (env : RunEnv) : Prop :=
  StdoutPipe_err env = None /\ StderrPipe_err env = None /\ Start_err env = None.

(** The state in which [Run] enters its loop. *)
Definition loopEntry (c : Command) (env : RunEnv) (w : World) : LoopState :=
  mkLoop false (loopStart_now env)
    (cmd_Start
       (StdoutLogger_Printf (writeProgress ("Running command: " ++ Name c) w)
          (LogRunningAs (Name c) (Args c)))).

(** [Run c env w] handles [pre] without returning, is then in state [st],
    and receives [ev] next. *)
Definition reaches (c : Command) (env : RunEnv) (w : World)
  (pre : list Event) (st : LoopState) (ev : Event) (post : list Event) : Prop :=
  started env
  /\ events env = (pre ++ ev :: post)%list
  /\ drain c (startTime_now env) (loopEntry c env w) pre = Some st.

(** [%s] of the elapsed time of the run when it ends at [endTime]. *)
Definition commandDuration (env : RunEnv) (endTime : time.Time) : string :=
  time.String_
    (time.Truncate (time.Sub endTime (startTime_now env)) time.Second).

(** The errors of acquiring a stream handle. *)
Definition isPipeError (e : RunError) : bool :=
  match e with
  | ErrStdoutPipe _ | ErrStderrPipe _ => true
  | _ => false
  end.

(** The lines [Run] writes to the response at a turn that does not end
    the loop, and the line it writes before the loop. *)
Inductive progressLine (c : Command) (env : RunEnv) : string -> Prop :=
| pl_running : progressLine c env ("Running command: " ++ Name c)
| pl_output line : In (Output line) (events env) -> progressLine c env line
| pl_waiting d : progressLine c env (stillWaitingLine c d)
| pl_timedOut : progressLine c env (timedOutLine c).

(** The world in which [handler] calls [Run], given the world [w] in
    which it has read the body. *)
Definition committed (w : World) : World :=
  Flush (WriteHeader (Header_Set w "Transfer-Encoding" "chunked") StatusOK).

(** [Kill] has been called once if the run is marked terminated, and not
    at all otherwise. *)
Definition killsAre (k0 : nat) (st : LoopState) : Prop :=
  kills (world st) = (k0 + if processTerminated st then 1 else 0)%nat.

(** Every line of the response is a line of [base] or a progress line. *)
Definition progressOnly (c : Command) (env : RunEnv) (base : list string)
  (w : World) : Prop :=
  forall line, In line (resp_body w) -> In line base \/ progressLine c env line.

(** ** Sample runs *)

Module Samples.

Definition echo : Command := NewCommand "echo" ["hello"].
Definition sleep : Command := NewCommand "sleep" ["7200"].
Definition false_ : Command := NewCommand "false" [].
Definition grep : Command := mkCommand "grep" ["-q"; "x"] true false [0; 1].
Definition tolerant : Command := mkCommand "cleanup" [] true true [0].

(** [echo hello]: one line, then a clean exit after 0.3 s. *)
Definition env_echo : RunEnv :=
  mkRunEnv None None 0 None 1000 [Output "hello"; Done None 300000000].

(** A process that exits with status 1 after 5 ms. *)
Definition env_exit1 : RunEnv :=
  mkRunEnv None None 0 None 1000
    [Done (Some (ExitError "exit status 1" (Some 256))) 5000000].

(** A process that outlives the hour: a live tick, the tick of the
    deadline, a second one, a line that was still in the pipe, and the
    completion of the killed process. *)
Definition env_timeout : RunEnv :=
  mkRunEnv None None 0 None 1000
    [Tick 2021 5000000000 None 5000000100;
     Tick 1 3600000000000 None 3600000000000;
     Tick 1 3600000000500 None 3600000000500;
     Output "late";
     Done (Some (ExitError "signal: killed" (Some 9))) 3600100000000].

(** The deadline arrives when the process has just been reaped: the
    kill fails. *)
Definition env_killfail : RunEnv :=
  mkRunEnv None None 0 None 1000
    [Tick 1 3600000000000 (Some "os: process already finished")
       3600000000000;
     Done None 3600000000100].

(** No descriptor is left for the second pipe. *)
Definition env_nopipe : RunEnv :=
  mkRunEnv None (Some "pipe2: too many open files") 0 None 1000
    [Output "never"; Done None 1].

Definition parse (body : string) : option string :=
  if String.eqb body "{}" then None
  else Some "invalid character 'x' looking for beginning of value".

Definition request (args : list string) (body : string) (env : RunEnv)
  : HandlerEnv :=
  mkHandlerEnv args true (inl body) parse None env.

End Samples.

(** ** The server *)

(** The answers of the environment to [main]: the value of [PORT], and
    the error with which [http.ListenAndServe] returns when it returns. *)
Record MainEnv := mkMainEnv {
  PORT : string;
  ListenAndServe_err : string
}.

(** [main], up to the return of [http.ListenAndServe]: the address the
    server was asked to listen on, and the world with the log of the
    process.  The call of [log.Fatal] that follows ends the process. *)
Definition main (env : MainEnv) (w : World) : string * World :=
  let w := log_Print w "Starting Cloud Run function..." in
  let port := PORT env in
  let '(port, w) :=
    if String.eqb port "" then
      ("8080", log_Print w ("Defaulting to port " ++ "8080"))
    else (port, w) in
  let w := log_Print w ("Listening on port " ++ port) in
  (":" ++ port, log_Print w (ListenAndServe_err env)).

(** ** Vocabulary for the properties of whole runs *)

(** The lines [Run] composes itself. *)
Inductive ownLine (c : Command) : string -> Prop :=
| own_running : ownLine c ("Running command: " ++ Name c)
| own_waiting d : ownLine c (stillWaitingLine c d)
| own_timedOut : ownLine c (timedOutLine c)
| own_completed d : ownLine c (completedLine c d).

(** The lines of the process among the events, in the order received. *)
Fixpoint outputLines (evs : list Event) : list string :=
  match evs with
  | [] => []
  | Output line :: rest => line :: outputLines rest
  | _ :: rest => outputLines rest
  end.

(** [l1] is [l2] with some elements left out. *)
Inductive subseq {A : Type} : list A -> list A -> Prop :=
| subseq_nil : subseq [] []
| subseq_keep x l1 l2 : subseq l1 l2 -> subseq (x :: l1) (x :: l2)
| subseq_skip x l1 l2 : subseq l1 l2 -> subseq l1 (x :: l2).

(** The tick that tells that the deadline has passed. *)
Definition isDeadline (ev : Event) : bool :=
  match ev with
  | Tick tickYear _ _ _ => tickYear =? 1
  | _ => false
  end.

(** A tick before the deadline, not more than a second after [last]. *)
Definition isEarlyTick (last : time.Time) (ev : Event) : bool :=
  match ev with
  | Tick tickYear now _ _ =>
      negb (tickYear =? 1) && negb (time.Second <? time.Sub now last)
  | _ => false
  end.

(** Which [fmt.Errorf] an error of [Run] comes from. *)
Inductive ErrorKind :=
| StdoutPipeFailed
| StderrPipeFailed
| StartFailed
| TerminateFailed
| ExitedWithStatus
| WaitFailed.

Definition kindOf (e : RunError) : ErrorKind :=
  match e with
  | ErrStdoutPipe _ => StdoutPipeFailed
  | ErrStderrPipe _ => StderrPipeFailed
  | ErrStart _ => StartFailed
  | ErrTerminate _ => TerminateFailed
  | ErrExitStatus _ _ => ExitedWithStatus
  | ErrFailed _ _ => WaitFailed
  end.

(** Does the character occur in the string. *)
Fixpoint hasChar (a : ascii) (s : string) : bool :=
  match s with
  | EmptyString => false
  | String b rest => Ascii.eqb a b || hasChar a rest
  end.


(** The response and the standard-error log have grown by the same lines. *)
Definition mirrored (w0 w : World) (rest : list string) : Prop :=
  resp_body w = (resp_body w0 ++ rest)%list
  /\ stderr_log w = (stderr_log w0 ++ rest)%list.

(** A tick on which the loop has nothing to do in state [st]: the tick of
    the deadline when the run is already marked terminated, or a tick
    before the deadline not more than a second after the last
    still-waiting line. *)
Definition idleTick (st : LoopState) (ev : Event) : bool :=
  (processTerminated st && isDeadline ev)
  || isEarlyTick (lastIntervalTime st) ev.

(** [pollTimer.Stop] has been called once if the run is marked
    terminated, and not at all otherwise. *)
Definition stopsAre (s0 : nat) (st : LoopState) : Prop :=
  ticker_stops (world st)
  = (s0 + if processTerminated st then 1 else 0)%nat.

(** [w0] is [w] with more records in the log of the process, and
    nothing else changed. *)
Inductive loggedFrom (w : World) : World -> Prop :=
| logged_same : loggedFrom w w
| logged_more w0 m : loggedFrom w w0 -> loggedFrom w (log_Print w0 m).

(** The world in which [handler] comes to serve the request, if the
    request is accepted: a command is configured, the response can be
    flushed, and the body was read and is empty or parses. *)
Definition accepted (env : HandlerEnv) (w : World) : option World :=
  if (List.length (os_Args env) =? 1)%nat then None
  else if negb (w_is_Flusher env) then None
  else
    match ReadAll env with
    | inr _ => None
    | inl body =>
        if (0 <? String.length body)%nat then
          match json_Unmarshal env body with
          | Some _ => None
          | None => Some (ctxDone env AfterBody (ctxDone env AtSpawn w))
          end
        else
          Some (ctxDone env AfterBody
                  (log_Print (ctxDone env AtSpawn w)
                     "Not a Pub/Sub invocation (no request body)."))
    end.

(** How [handler] ends for each end of [Run]. *)
Definition exitOf (r : Ending) : Exit :=
  match r with
  | Returned (Some _) => Fatal
  | Returned None => Finished
  | Waiting => Blocked
  end.

(** The completions on which a command run with the defaults of
    [NewCommand] makes [Run] return nil. *)
Definition cleanCompletion (ev : Event) : Prop :=
  (exists endTime, ev = Done None endTime)
  \/ (exists msg status endTime,
        ev = Done (Some (ExitError msg (Some status))) endTime
        /\ syscall.ExitStatus status = 0).

Module MoreSamples.

(** A command whose output is logged only. *)
Definition quiet : Command := mkCommand "backup" ["--all"] false false [0].

(** Two lines of output, a tick, and a clean exit. *)
Definition env_two_lines : RunEnv :=
  mkRunEnv None None 0 None 1000
    [Output "one"; Tick 2021 2000000000 None 2000000100; Output "two";
     Done None 2500000000].

(** The program cannot be executed. *)
Definition env_nostart : RunEnv :=
  mkRunEnv None None 0 (Some "exec: no such file or directory") 1000
    [Output "never"; Done None 1].

(** The process is killed from outside by signal 9. *)
Definition env_signal : RunEnv :=
  mkRunEnv None None 0 None 1000
    [Done (Some (ExitError "signal: killed" (Some 9))) 2000000000].

(** Waiting for the process fails. *)
Definition env_waitfail : RunEnv :=
  mkRunEnv None None 0 None 1000
    [Done (Some (OtherError "wait: no child processes")) 2000000000].

End MoreSamples.

(** ** The loop, one turn at a time *)

Lemma loop_app c s st pre st' evs :
  drain c s st pre = Some st' ->
  loop c s st (pre ++ evs)%list = loop c s st' evs.
Proof.
  revert st. induction pre as [|ev pre IH]; intros st H; simpl in *.
  - now inversion H.
  - destruct (step c s st ev); [now apply IH | discriminate].
Qed.

Lemma loop_Returned_inv c s st evs r w' :
  loop c s st evs = (Returned r, w') ->
  exists pre ev post st',
    evs = (pre ++ ev :: post)%list
    /\ drain c s st pre = Some st'
    /\ step c s st' ev = Return r w'.
Proof.
  revert st. induction evs as [|ev evs IH]; intros st H; simpl in H.
  - discriminate.
  - destruct (step c s st ev) as [st1|r1 w1] eqn:E.
    + destruct (IH _ H) as (pre & ev' & post & st' & -> & Hd & Hs).
      exists (ev :: pre), ev', post, st'. simpl. rewrite E. auto.
    + inversion H; subst. exists [], ev, evs, st. auto.
Qed.

Lemma Run_started c env w :
  started env ->
  Run c env w = loop c (startTime_now env) (loopEntry c env w) (events env).
Proof.
  intros (H1 & H2 & H3). unfold Run. now rewrite H1, H2, H3.
Qed.

Lemma Run_reaches c env w pre st ev post :
  reaches c env w pre st ev post ->
  Run c env w =
    match step c (startTime_now env) st ev with
    | Continue st' => loop c (startTime_now env) st' post
    | Return r w' => (Returned r, w')
    end.
Proof.
  intros (Hs & He & Hd).
  rewrite (Run_started _ _ _ Hs), He, (loop_app _ _ _ _ _ _ Hd).
  reflexivity.
Qed.

Lemma isAllowed_In status codes :
  isAllowed status codes = true <-> In status codes.
Proof.
  induction codes as [|x codes IH]; simpl.
  - split; [discriminate | tauto].
  - destruct (Z.eqb_spec status x) as [->|Hne].
    + tauto.
    + rewrite IH. split; [tauto|]. intros [H|H]; [congruence | exact H].
Qed.

Lemma isAllowed_not_In status codes :
  ~ In status codes -> isAllowed status codes = false.
Proof.
  intros H. destruct (isAllowed status codes) eqn:E; [|reflexivity].
  now apply isAllowed_In in E.
Qed.

(** ** Checks of the library functions on known values *)

Example String_hour : time.String_ (60 * time.Minute) = "1h0m0s".
Proof. reflexivity. Qed.

Example String_frac : time.String_ 1500000000 = "1.5s".
Proof. reflexivity. Qed.

Example String_small : time.String_ (-1200000) = "-1.2ms".
Proof. reflexivity. Qed.

Example String_micro : time.String_ 1500 = "1.5" ++ time.micro ++ "s".
Proof. reflexivity. Qed.

Example String_minute : time.String_ (time.Truncate 61999999999 time.Second) = "1m1s".
Proof. reflexivity. Qed.

Example Truncate_negative : time.Truncate (-1500000000) time.Second = -1000000000.
Proof. reflexivity. Qed.

Example Itoa_neg : strconv.Itoa (-1) = "-1".
Proof. reflexivity. Qed.

Example ExitStatus_killed : syscall.ExitStatus 9 = -1.
Proof. reflexivity. Qed.

Example ExitStatus_one : syscall.ExitStatus 256 = 1.
Proof. reflexivity. Qed.


(** ** Decimal numerals name one number *)

Lemma string_app_assoc (a b c : string) : (a ++ b) ++ c = a ++ (b ++ c).
Proof.
  induction a as [|x a IH]; simpl; [reflexivity | now rewrite IH].
Qed.

Lemma digit_cases d :
  0 <= d <= 9 ->
  d = 0 \/ d = 1 \/ d = 2 \/ d = 3 \/ d = 4 \/ d = 5 \/ d = 6 \/ d = 7
  \/ d = 8 \/ d = 9.
Proof. lia. Qed.

Lemma digitValue_digit d :
  0 <= d <= 9 ->
  strconv.digitValue (strconv.digit d) = d
  /\ Ascii.eqb (strconv.digit d) "-" = false.
Proof.
  intros H. apply digit_cases in H.
  repeat (destruct H as [->|H]; [split; reflexivity|]).
  subst. split; reflexivity.
Qed.

Lemma fmtDigits_app fuel : forall v buf,
  strconv.fmtDigits fuel v buf = strconv.fmtDigits fuel v "" ++ buf.
Proof.
  induction fuel as [|fuel IH]; intros v buf; simpl; [reflexivity|].
  destruct (0 <? v); [|reflexivity].
  rewrite (IH _ (String _ buf)), (IH _ (String _ "")), string_app_assoc.
  reflexivity.
Qed.

Lemma parseDigits_app s1 : forall s2 acc,
  strconv.parseDigits (s1 ++ s2) acc
  = strconv.parseDigits s2 (strconv.parseDigits s1 acc).
Proof.
  induction s1 as [|a s1 IH]; intros s2 acc; simpl; [reflexivity | apply IH].
Qed.

Lemma parseDigits_fmtDigits fuel : forall v,
  0 <= v < 10 ^ Z.of_nat fuel ->
  strconv.parseDigits (strconv.fmtDigits fuel v "") 0 = v.
Proof.
  induction fuel as [|fuel IH]; intros v Hv.
  - simpl in *. lia.
  - cbn [strconv.fmtDigits].
    destruct (Z.ltb_spec 0 v) as [Hpos|Hz]; [|simpl; lia].
    rewrite fmtDigits_app, parseDigits_app, IH.
    + cbn [strconv.parseDigits].
      destruct (digitValue_digit (v mod 10)) as [-> _].
      * pose proof (Z.mod_pos_bound v 10). lia.
      * pose proof (Z.div_mod v 10). lia.
    + rewrite Nat2Z.inj_succ, Z.pow_succ_r in Hv by lia.
      split; [apply Z.div_pos; lia|].
      apply Z.div_lt_upper_bound; lia.
Qed.

Lemma fmtDigits_head fuel : forall v buf,
  0 < v -> fuel <> O ->
  exists d rest,
    0 <= d <= 9 /\ strconv.fmtDigits fuel v buf = String (strconv.digit d) rest.
Proof.
  induction fuel as [|fuel IH]; intros v buf Hv Hf; [congruence|].
  cbn [strconv.fmtDigits].
  destruct (Z.ltb_spec 0 v) as [_|]; [|lia].
  assert (Hd : 0 <= v mod 10 <= 9)
    by (pose proof (Z.mod_pos_bound v 10); lia).
  destruct fuel as [|fuel'].
  - exists (v mod 10), buf. auto.
  - destruct (Z.ltb_spec 0 (v / 10)) as [Hq|Hq].
    + apply IH; [exact Hq | discriminate].
    + exists (v mod 10), buf. split; [exact Hd|].
      cbn [strconv.fmtDigits].
      destruct (Z.ltb_spec 0 (v / 10)); [lia | reflexivity].
Qed.

(** The decimal rendering of an [int] reads back as that [int]. *)
Lemma Atoi_Itoa i :
  - 10 ^ 20 < i < 10 ^ 20 -> strconv.Atoi (strconv.Itoa i) = i.
Proof.
  intros Hi. unfold strconv.Itoa, strconv.fmtInt.
  destruct (Z.ltb_spec i 0) as [Hneg|Hnn].
  - destruct (Z.eqb_spec (- i) 0) as [E|_]; [lia|].
    cbn [strconv.Atoi]. change (Ascii.eqb "-" "-") with true. cbv iota.
    rewrite parseDigits_fmtDigits; [lia|].
    change (Z.of_nat 20) with 20. lia.
  - destruct (Z.eqb_spec i 0) as [->|Hnz]; [reflexivity|].
    destruct (fmtDigits_head 20 i "") as (d & rest & Hd & E);
      [lia | discriminate |].
    pose proof (parseDigits_fmtDigits 20 i) as Hp.
    rewrite E in *. cbn [strconv.Atoi].
    destruct (digitValue_digit d Hd) as [_ ->].
    apply Hp. change (Z.of_nat 20) with 20. lia.
Qed.

Lemma ExitStatus_range status : -1 <= syscall.ExitStatus status <= 255.
Proof.
  unfold syscall.ExitStatus. destruct (syscall.Exited status); [|lia].
  change 255 with (Z.ones 8) at 1 2.
  rewrite Z.land_ones by lia.
  pose proof (Z.mod_pos_bound (Z.shiftr status syscall.shift) (2 ^ 8)).
  lia.
Qed.

(** ** What the completion of the process is turned into *)

(** C3: when the loop receives the completion of a process that exited
    with a status outside [AllowedExitCodes], and [CanFail] is off, [Run]
    returns the exit-status error for exactly that status, and the text of
    the error ends with the decimal rendering of the status, which reads
    back as that status and no other. *)
Theorem Run_disallowed_exit_status c env w pre st post msg status endTime :
  reaches c env w pre st
    (Done (Some (ExitError msg (Some status))) endTime) post ->
  CanFail c = false ->
  ~ In (syscall.ExitStatus status) (AllowedExitCodes c) ->
  let code := syscall.ExitStatus status in
  let err := ErrExitStatus (commandDuration env endTime) code in
  fst (Run c env w) = Returned (Some err)
  /\ Error err =
       "Command exited with status code in " ++ commandDuration env endTime
         ++ ": " ++ strconv.Itoa code
  /\ strconv.Atoi (strconv.Itoa code) = code.
Proof.
  intros Hr Hc Hn code err.
  rewrite (Run_reaches _ _ _ _ _ _ _ Hr). simpl. unfold onDone.
  rewrite Hc, (isAllowed_not_In _ _ Hn).
  split; [reflexivity|]. split; [reflexivity|].
  apply Atoi_Itoa. pose proof (ExitStatus_range status). subst code. lia.
Qed.

Lemma Run_disallowed_exit_status_witness :
  fst (Run Samples.false_ Samples.env_exit1 world0)
    = Returned (Some (ErrExitStatus "0s" 1))
  /\ Error (ErrExitStatus "0s" 1) = "Command exited with status code in 0s: 1"
  /\ strconv.Atoi "1" = 1.
Proof.
  apply (Run_disallowed_exit_status Samples.false_ Samples.env_exit1 world0
           [] (loopEntry Samples.false_ Samples.env_exit1 world0) []
           "exit status 1" 256 5000000).
  - repeat split; reflexivity.
  - reflexivity.
  - simpl. intros [H|[]]. discriminate H.
Defined.

(** C4: when the loop receives the completion of a process that exited
    with a status listed in [AllowedExitCodes], [Run] returns nil, whether
    [CanFail] is set or not, and writes nothing to the response. *)
Theorem Run_allowed_exit_status c env w pre st post msg status endTime :
  reaches c env w pre st
    (Done (Some (ExitError msg (Some status))) endTime) post ->
  In (syscall.ExitStatus status) (AllowedExitCodes c) ->
  fst (Run c env w) = Returned None
  /\ resp_body (snd (Run c env w)) = resp_body (world st).
Proof.
  intros Hr Hin. apply isAllowed_In in Hin.
  rewrite (Run_reaches _ _ _ _ _ _ _ Hr). simpl. unfold onDone.
  destruct (CanFail c); [|rewrite Hin]; split; reflexivity.
Qed.

Lemma Run_allowed_exit_status_witness :
  fst (Run Samples.grep Samples.env_exit1 world0) = Returned None
  /\ resp_body (snd (Run Samples.grep Samples.env_exit1 world0))
     = ["Running command: grep"].
Proof.
  apply (Run_allowed_exit_status Samples.grep Samples.env_exit1 world0
           [] (loopEntry Samples.grep Samples.env_exit1 world0) []
           "exit status 1" 256 5000000).
  - repeat split; reflexivity.
  - simpl. right. left. reflexivity.
Defined.

(** C5: with [CanFail] set, whatever error the completion carries (an
    exit status, allowed or not, or any other error), [Run] returns nil;
    all it does at that turn is stop the ticker and log one warning on the
    standard-output logger, the response is left as it was. *)
Theorem Run_CanFail_swallows c env w pre st post e endTime :
  reaches c env w pre st (Done (Some e) endTime) post ->
  CanFail c = true ->
  Run c env w =
    (Returned None,
     StdoutLogger_Printf (pollTimer_Stop (world st))
       (LogText ("Warning, command failed (ignoring error) in "
                   ++ commandDuration env endTime ++ ": "
                   ++ WaitError_Error e)))
  /\ resp_body (snd (Run c env w)) = resp_body (world st)
  /\ stderr_log (snd (Run c env w)) = stderr_log (world st).
Proof.
  intros Hr Hc.
  rewrite (Run_reaches _ _ _ _ _ _ _ Hr). simpl. unfold onDone.
  rewrite Hc. repeat split; reflexivity.
Qed.

Lemma Run_CanFail_swallows_witness :
  Run Samples.tolerant Samples.env_exit1 world0 =
    (Returned None,
     StdoutLogger_Printf
       (pollTimer_Stop (world (loopEntry Samples.tolerant Samples.env_exit1 world0)))
       (LogText "Warning, command failed (ignoring error) in 0s: exit status 1"))
  /\ resp_body (snd (Run Samples.tolerant Samples.env_exit1 world0))
     = ["Running command: cleanup"]
  /\ stderr_log (snd (Run Samples.tolerant Samples.env_exit1 world0))
     = ["Running command: cleanup"].
Proof.
  apply (Run_CanFail_swallows Samples.tolerant Samples.env_exit1 world0
           [] (loopEntry Samples.tolerant Samples.env_exit1 world0) []
           (ExitError "exit status 1" (Some 256)) 5000000).
  - repeat split; reflexivity.
  - reflexivity.
Defined.

Lemma Truncate_whole d m :
  0 < m -> Z.rem (time.Truncate d m) m = 0.
Proof.
  intros Hm. unfold time.Truncate.
  destruct (Z.leb_spec m 0) as [H|_]; [lia|].
  pose proof (Z.quot_rem' d m) as E.
  replace (d - Z.rem d m) with (Z.quot d m * m) by lia.
  apply Z.rem_mul. lia.
Qed.

(** C6: when the loop receives a completion that carries no error (the
    process exited with status 0), [Run] returns nil and the line
    ["Command completed in <elapsed>: <name>"] is the last line of the
    response, the elapsed time being a whole number of seconds. *)
Theorem Run_completed c env w pre st post endTime :
  reaches c env w pre st (Done None endTime) post ->
  let elapsed :=
    time.Truncate (time.Sub endTime (startTime_now env)) time.Second in
  fst (Run c env w) = Returned None
  /\ resp_body (snd (Run c env w))
     = (resp_body (world st)
          ++ [("Command completed in " ++ time.String_ elapsed ++ ": " ++ Name c)%string])%list
  /\ Z.rem elapsed time.Second = 0.
Proof.
  intros Hr elapsed.
  rewrite (Run_reaches _ _ _ _ _ _ _ Hr). simpl.
  repeat split. apply Truncate_whole. reflexivity.
Qed.

Lemma Run_completed_witness :
  fst (Run Samples.echo Samples.env_echo world0) = Returned None
  /\ resp_body (snd (Run Samples.echo Samples.env_echo world0))
     = ["Running command: echo"; "hello"; "Command completed in 0s: echo"]
  /\ Z.rem 0 time.Second = 0.
Proof.
  apply (Run_completed Samples.echo Samples.env_echo world0
           [Output "hello"]
           (mkLoop false 1000
              (writeProgress "hello"
                 (world (loopEntry Samples.echo Samples.env_echo world0))))
           [] 300000000).
  repeat split; reflexivity.
Defined.

(** ** Errors before the process runs *)

Lemma pipe_error_text_distinct e r :
  isPipeError e = true -> isPipeError r = false -> Error e <> Error r.
Proof.
  destruct e, r; simpl; intros He Hr; try discriminate He; try discriminate Hr;
    intros H; discriminate H.
Qed.

(** C7: if the standard-output pipe or the standard-error pipe cannot be
    obtained, [Run] returns the error of that pipe at once: [cmd.Start] is
    not called, the loop is not entered, the response holds nothing but
    the line that announces the command, and the text of the error differs
    from the text of every error [Run] returns otherwise. *)
Theorem Run_pipe_error c env w :
  StdoutPipe_err env <> None \/ StderrPipe_err env <> None ->
  exists e,
    fst (Run c env w) = Returned (Some e)
    /\ isPipeError e = true
    /\ starts (snd (Run c env w)) = starts w
    /\ kills (snd (Run c env w)) = kills w
    /\ resp_body (snd (Run c env w))
       = (resp_body w ++ [("Running command: " ++ Name c)%string])%list
    /\ forall r, isPipeError r = false -> Error e <> Error r.
Proof.
  intros H. unfold Run.
  destruct (StdoutPipe_err env) as [e1|].
  - exists (ErrStdoutPipe e1). repeat split.
    intros r. now apply pipe_error_text_distinct.
  - destruct (StderrPipe_err env) as [e2|].
    + exists (ErrStderrPipe e2). repeat split.
      intros r. now apply pipe_error_text_distinct.
    + destruct H as [H|H]; now elim H.
Qed.

Lemma Run_pipe_error_witness :
  exists e,
    fst (Run Samples.echo Samples.env_nopipe world0) = Returned (Some e)
    /\ isPipeError e = true
    /\ starts (snd (Run Samples.echo Samples.env_nopipe world0)) = 0%nat
    /\ kills (snd (Run Samples.echo Samples.env_nopipe world0)) = 0%nat
    /\ resp_body (snd (Run Samples.echo Samples.env_nopipe world0))
       = ["Running command: echo"]
    /\ forall r, isPipeError r = false -> Error e <> Error r.
Proof.
  apply (Run_pipe_error Samples.echo Samples.env_nopipe world0).
  right. simpl. discriminate.
Defined.

(** ** Invariants of the loop *)

(** A property of the loop state that every turn keeps, and that gives
    [Q] when the loop returns or waits, gives [Q] of the outcome and the
    world of the whole loop. *)
Lemma loop_invariant c s (P : LoopState -> Prop) (Q : Ending -> World -> Prop) :
  (forall st ev, P st ->
     match step c s st ev with
     | Continue st' => P st'
     | Return r w' => Q (Returned r) w'
     end) ->
  (forall st, P st -> Q Waiting (world st)) ->
  forall evs st, P st ->
    Q (fst (loop c s st evs)) (snd (loop c s st evs)).
Proof.
  intros Hstep Hworld evs.
  induction evs as [|ev evs IH]; intros st HP; simpl.
  - now apply Hworld.
  - specialize (Hstep st ev HP).
    destruct (step c s st ev); [now apply IH | exact Hstep].
Qed.

Lemma drain_invariant c s (P : LoopState -> Prop) :
  (forall st ev st', P st -> step c s st ev = Continue st' -> P st') ->
  forall evs st st', P st -> drain c s st evs = Some st' -> P st'.
Proof.
  intros Hstep evs.
  induction evs as [|ev evs IH]; intros st st' HP H; simpl in H.
  - now inversion H; subst.
  - destruct (step c s st ev) eqn:E; [|discriminate].
    eapply IH; [|exact H]. eapply Hstep; eauto.
Qed.

Ltac step_cases :=
  unfold step, onDone;
  repeat (simpl;
          match goal with
          | |- context [match ?x with _ => _ end] => is_var x; destruct x
          | |- context [if ?b then _ else _] => destruct b
          end);
  simpl; auto.

(** Once the status line of the response is sent it does not change. *)
Lemma step_status c s st ev code :
  resp_status (world st) = Some code ->
  match step c s st ev with
  | Continue st' => resp_status (world st') = Some code
  | Return _ w' => resp_status w' = Some code
  end.
Proof.
  intros H. destruct st as [term last w]; simpl in H.
  destruct ev; step_cases; simpl; try rewrite H; auto.
Qed.

Lemma Run_status c env w code :
  resp_status w = Some code ->
  resp_status (snd (Run c env w)) = Some code.
Proof.
  intros H. unfold Run.
  destruct (StdoutPipe_err env); [simpl; now rewrite H|].
  destruct (StderrPipe_err env); [simpl; now rewrite H|].
  destruct (Start_err env); [simpl; now rewrite H|].
  apply (loop_invariant c (startTime_now env)
           (fun st => resp_status (world st) = Some code)
           (fun _ w => resp_status w = Some code)).
  - intros st ev. apply step_status.
  - auto.
  - simpl. now rewrite H.
Qed.

Lemma Run_header c env w :
  resp_header (snd (Run c env w)) = resp_header w.
Proof.
  unfold Run.
  destruct (StdoutPipe_err env); [reflexivity|].
  destruct (StderrPipe_err env); [reflexivity|].
  destruct (Start_err env); [reflexivity|].
  apply (loop_invariant c (startTime_now env)
           (fun st => resp_header (world st) = resp_header w)
           (fun _ w' => resp_header w' = resp_header w)).
  - intros [term last w0] ev H; simpl in H.
    destruct ev; step_cases.
  - auto.
  - reflexivity.
Qed.

(** ** The handler *)

Lemma serve_command env w ex w' c :
  serve env w = (ex, w', Some c) ->
  nth_error (os_Args env) 1 = Some (Name c)
  /\ c = NewCommand (Name c) (skipn 2 (os_Args env)).
Proof.
  unfold serve. intros H.
  destruct (nth_error (os_Args env) 1) as [name|] eqn:En; [|discriminate].
  assert (Hargs :
    (if (2 <? List.length (os_Args env))%nat then skipn 2 (os_Args env) else [])
    = skipn 2 (os_Args env)).
  { destruct (Nat.ltb_spec 2 (List.length (os_Args env))) as [_|Hle];
      [reflexivity|].
    symmetry. apply skipn_all2. exact Hle. }
  rewrite Hargs in H.
  destruct (Run _ _ _) as [[[e|]|] w1]; inversion H; subst; simpl; auto.
Qed.

Lemma handler_command env w ex w' c :
  handler env w = (ex, w', Some c) ->
  nth_error (os_Args env) 1 = Some (Name c)
  /\ c = NewCommand (Name c) (skipn 2 (os_Args env)).
Proof.
  unfold handler. intros H.
  destruct (List.length (os_Args env) =? 1)%nat; [discriminate|].
  destruct (negb (w_is_Flusher env)); [discriminate|].
  destruct (ReadAll env) as [body|e]; [|discriminate].
  destruct (0 <? String.length body)%nat.
  - destruct (json_Unmarshal env body); [discriminate|].
    eapply serve_command; eauto.
  - eapply serve_command; eauto.
Qed.

(** C9: a command built by [NewCommand] shows output, does not tolerate
    failure and allows exit status 0 only; and the command the handler
    runs, whenever it runs one, is the value [NewCommand] built from
    [os.Args], with these three fields untouched. *)
Theorem handler_runs_NewCommand_defaults name args env w ex w' c :
  handler env w = (ex, w', Some c) ->
  (ShowOutput (NewCommand name args) = true
   /\ CanFail (NewCommand name args) = false
   /\ AllowedExitCodes (NewCommand name args) = [0])
  /\ c = NewCommand (Name c) (skipn 2 (os_Args env))
  /\ nth_error (os_Args env) 1 = Some (Name c)
  /\ ShowOutput c = true
  /\ CanFail c = false
  /\ AllowedExitCodes c = [0].
Proof.
  intros H. destruct (handler_command _ _ _ _ _ H) as [Hn Hc].
  split; [repeat split|].
  split; [exact Hc|]. split; [exact Hn|].
  rewrite Hc. repeat split.
Qed.

Lemma handler_runs_NewCommand_defaults_witness :
  (ShowOutput (NewCommand "x" ["y"]) = true
   /\ CanFail (NewCommand "x" ["y"]) = false
   /\ AllowedExitCodes (NewCommand "x" ["y"]) = [0])
  /\ Samples.echo
     = NewCommand (Name Samples.echo)
         (skipn 2 (os_Args (Samples.request ["run"; "echo"; "hello"] ""
                              Samples.env_echo)))
  /\ nth_error (os_Args (Samples.request ["run"; "echo"; "hello"] ""
                           Samples.env_echo)) 1
     = Some (Name Samples.echo)
  /\ ShowOutput Samples.echo = true
  /\ CanFail Samples.echo = false
  /\ AllowedExitCodes Samples.echo = [0].
Proof.
  apply (handler_runs_NewCommand_defaults "x" ["y"]
           (Samples.request ["run"; "echo"; "hello"] "" Samples.env_echo)
           world0 Finished
           (snd (Run Samples.echo Samples.env_echo
                   (Flush (WriteHeader
                      (Header_Set
                         (log_Print world0
                            "Not a Pub/Sub invocation (no request body).")
                         "Transfer-Encoding" "chunked") StatusOK))))).
  reflexivity.
Defined.

Lemma String_length_pos body :
  body <> "" -> (0 <? String.length body)%nat = true.
Proof.
  destruct body; [congruence | reflexivity].
Qed.


(** ** The deadline *)

Lemma step_killsAre c s k0 st ev st' :
  killsAre k0 st -> step c s st ev = Continue st' -> killsAre k0 st'.
Proof.
  unfold killsAre. destruct st as [term last w]; simpl. intros H.
  destruct ev as [line|year now kerr now'|err now]; simpl.
  - intros E; inversion E; subst; simpl. destruct (ShowOutput c); exact H.
  - destruct (year =? 1).
    + destruct term; simpl.
      * intros E; inversion E; subst; exact H.
      * destruct kerr; [discriminate|].
        intros E; inversion E; subst; simpl. rewrite H. lia.
    + destruct (time.Second <? time.Sub now last);
        intros E; inversion E; subst; simpl; exact H.
  - unfold onDone. destruct err as [e|].
    + destruct (CanFail c); [discriminate|].
      destruct e as [msg [status|]|msg]; try discriminate.
      destruct (isAllowed _ _); discriminate.
    + discriminate.
Qed.

Lemma step_terminated c s st ev :
  processTerminated st = true ->
  match step c s st ev with
  | Continue st' =>
      processTerminated st' = true /\ kills (world st') = kills (world st)
  | Return r w' =>
      kills w' = kills (world st)
      /\ exists err endTime, ev = Done err endTime
                             /\ onDone c s err endTime (world st) = Return r w'
  end.
Proof.
  destruct st as [term last w]; simpl. intros ->.
  destruct ev as [line|year now kerr now'|err now]; simpl.
  - destruct (ShowOutput c); auto.
  - destruct (year =? 1); simpl; auto.
    destruct (time.Second <? time.Sub now last); simpl; auto.
  - destruct (onDone c s err now w) as [st'|r w'] eqn:E.
    + unfold onDone in E. destruct err as [e|]; [|discriminate].
      destruct (CanFail c); [discriminate|].
      destruct e as [msg [status|]|msg]; try discriminate.
      destruct (isAllowed _ _); discriminate.
    + split; [|eauto].
      unfold onDone in E. destruct err as [e|].
      * destruct (CanFail c); [inversion E; reflexivity|].
        destruct e as [msg [status|]|msg]; try (inversion E; reflexivity).
        destruct (isAllowed _ _); inversion E; reflexivity.
      * inversion E; reflexivity.
Qed.

Lemma loop_terminated_kills c s evs st :
  processTerminated st = true ->
  kills (snd (loop c s st evs)) = kills (world st).
Proof.
  revert st. induction evs as [|ev evs IH]; intros st Ht; simpl.
  - reflexivity.
  - pose proof (step_terminated c s st ev Ht) as Hs.
    destruct (step c s st ev) as [st'|r w'].
    + destruct Hs as [Ht' Hk]. rewrite (IH _ Ht'). exact Hk.
    + apply Hs.
Qed.

Lemma loop_terminated_return c s evs st r w' :
  processTerminated st = true ->
  loop c s st evs = (Returned r, w') ->
  exists err endTime w1,
    In (Done err endTime) evs /\ onDone c s err endTime w1 = Return r w'.
Proof.
  revert st. induction evs as [|ev evs IH]; intros st Ht H; simpl in H.
  - discriminate.
  - pose proof (step_terminated c s st ev Ht) as Hs.
    destruct (step c s st ev) as [st'|r1 w1].
    + destruct Hs as [Ht' _].
      destruct (IH _ Ht' H) as (err & t & w1 & Hin & Hd).
      exists err, t, w1. split; [now right | exact Hd].
    + inversion H; subst.
      destruct Hs as [_ (err & t & -> & Hd)].
      exists err, t, (world st). split; [now left | exact Hd].
Qed.

(** The loop only adds lines to the response. *)
Lemma step_body_grows c s st ev line :
  In line (resp_body (world st)) ->
  match step c s st ev with
  | Continue st' => In line (resp_body (world st'))
  | Return _ w' => In line (resp_body w')
  end.
Proof.
  intros H. destruct st as [term last w]; simpl in H.
  destruct ev; step_cases; apply in_or_app; auto.
Qed.

Lemma loop_body_grows c s evs st line :
  In line (resp_body (world st)) ->
  In line (resp_body (snd (loop c s st evs))).
Proof.
  apply (loop_invariant c s
           (fun st => In line (resp_body (world st)))
           (fun _ w => In line (resp_body w))).
  - intros st0 ev. apply step_body_grows.
  - auto.
Qed.

Lemma timedOutLine_text c :
  timedOutLine c = "Command timed out in 1h0m0s: " ++ Name c.
Proof. reflexivity. Qed.

(** C1 (amended): when the tick of the deadline first arrives, [Run]
    calls [Kill] then, and that is the only call of [Kill] in the whole
    run, however many ticks of the deadline follow.  If the kill succeeds,
    the line ["Command timed out in 1h0m0s: <name>"] (the sixty minutes of
    [MaxElapsedTime], truncated to whole minutes) is written, the loop
    goes on with the run marked terminated, and what [Run] returns in the
    end is what the completion arm returns for the completion it receives
    later: there is no result of its own for a timeout.  If the kill
    fails, [Run] returns the error of the kill and writes no line. *)
Theorem Run_deadline_kills_once c env w pre st post now killErr now' :
  reaches c env w pre st (Tick 1 now killErr now') post ->
  processTerminated st = false ->
  kills (world st) = kills w
  /\ kills (snd (Run c env w)) = S (kills w)
  /\ timedOutLine c = "Command timed out in 1h0m0s: " ++ Name c
  /\ match killErr with
     | None =>
         Run c env w
           = loop c (startTime_now env)
               (mkLoop true (lastIntervalTime st)
                  (writeProgress (timedOutLine c)
                     (Process_Kill (pollTimer_Stop (world st)))))
               post
         /\ In (timedOutLine c) (resp_body (snd (Run c env w)))
         /\ forall r, fst (Run c env w) = Returned r ->
              exists err endTime w1 w2,
                In (Done err endTime) post
                /\ onDone c (startTime_now env) err endTime w1 = Return r w2
     | Some e =>
         Run c env w
           = (Returned (Some (ErrTerminate e)),
              Process_Kill (pollTimer_Stop (world st)))
         /\ resp_body (snd (Run c env w)) = resp_body (world st)
     end.
Proof.
  intros Hr Ht.
  assert (Hk : kills (world st) = kills w).
  { destruct Hr as (_ & _ & Hd).
    assert (Hinv : killsAre (kills w) st).
    { apply (drain_invariant c (startTime_now env) (killsAre (kills w))
               (fun st0 ev st1 => step_killsAre c _ _ st0 ev st1)
               pre (loopEntry c env w) st); [|exact Hd].
      unfold killsAre. simpl. lia. }
    unfold killsAre in Hinv. rewrite Ht in Hinv. lia. }
  split; [exact Hk|].
  rewrite (Run_reaches _ _ _ _ _ _ _ Hr).
  destruct st as [term last w0]; simpl in Ht, Hk |- *. subst term. simpl.
  destruct killErr as [e|].
  - simpl. rewrite Hk. repeat split.
  - set (st1 := mkLoop true last _).
    assert (Ht1 : processTerminated st1 = true) by reflexivity.
    split.
    { rewrite (loop_terminated_kills _ _ _ _ Ht1). simpl. now rewrite Hk. }
    split; [reflexivity|]. split; [reflexivity|]. split.
    { apply loop_body_grows. simpl. apply in_or_app. right. now left. }
    intros r Hret.
    destruct (loop c (startTime_now env) st1 post) as [o wf] eqn:E.
    simpl in Hret. subst o.
    destruct (loop_terminated_return _ _ _ _ _ _ Ht1 E)
      as (err & t & w1 & Hin & Hd).
    exists err, t, w1, wf. auto.
Qed.

Lemma Run_deadline_kills_once_witness :
  kills (writeProgress "[Still waiting for command to complete: sleep --- 5s]"
           (world (loopEntry Samples.sleep Samples.env_timeout world0)))
  = 0%nat
  /\ kills (snd (Run Samples.sleep Samples.env_timeout world0)) = 1%nat
  /\ timedOutLine Samples.sleep = "Command timed out in 1h0m0s: sleep".
Proof.
  destruct (Run_deadline_kills_once Samples.sleep Samples.env_timeout world0
              [Tick 2021 5000000000 None 5000000100]
              (mkLoop false 5000000100
                 (writeProgress
                    "[Still waiting for command to complete: sleep --- 5s]"
                    (world (loopEntry Samples.sleep Samples.env_timeout world0))))
              [Tick 1 3600000000500 None 3600000000500;
               Output "late";
               Done (Some (ExitError "signal: killed" (Some 9))) 3600100000000]
              3600000000000 None 3600000000000)
    as (A & B & C & _).
  - repeat split; reflexivity.
  - reflexivity.
  - exact (conj A (conj B C)).
Defined.

(** C1, as stated, fails on two runs.  In the first the deadline passes,
    the kill succeeds and the killed process completes: [Run] returns the
    exit-status error for -1 and not a timeout.  In the second the kill
    fails: [Run] returns the error of the kill and the response has no
    timeout line. *)
Lemma Run_deadline_counterexample :
  fst (Run Samples.sleep Samples.env_timeout world0)
    = Returned (Some (ErrExitStatus "1h0m0s" (-1)))
  /\ Error (ErrExitStatus "1h0m0s" (-1))
     = "Command exited with status code in 1h0m0s: -1"
  /\ Run Samples.sleep Samples.env_killfail world0
     = (Returned (Some (ErrTerminate "os: process already finished")),
        Process_Kill
          (pollTimer_Stop
             (world (loopEntry Samples.sleep Samples.env_killfail world0))))
  /\ resp_body (snd (Run Samples.sleep Samples.env_killfail world0))
     = ["Running command: sleep"].
Proof. repeat split. Qed.

(** ** What reaches the response, and when *)

Lemma progressOnly_write c env base w line :
  progressOnly c env base w -> progressLine c env line ->
  progressOnly c env base (writeProgress line w).
Proof.
  intros H Hl l Hin. simpl in Hin. apply in_app_or in Hin.
  destruct Hin as [Hin|[<-|[]]]; [now apply H | now right].
Qed.

Lemma step_progressOnly c env s base st ev :
  In ev (events env) ->
  progressOnly c env base (world st) ->
  match step c s st ev with
  | Continue st' => progressOnly c env base (world st')
  | Return (Some _) w' => progressOnly c env base w'
  | Return None _ => True
  end.
Proof.
  intros Hev H. destruct st as [term last w]; simpl in H.
  destruct ev as [line|year now kerr now'|err now]; simpl.
  - destruct (ShowOutput c); [|exact H].
    apply progressOnly_write; [exact H | now apply pl_output].
  - destruct (year =? 1).
    + destruct term; simpl; [exact H|].
      destruct kerr; [exact H|].
      simpl. apply progressOnly_write; [exact H | apply pl_timedOut].
    + destruct (time.Second <? time.Sub now last); simpl; [|exact H].
      apply progressOnly_write; [exact H | apply pl_waiting].
  - unfold onDone. destruct err as [e|]; [|exact I].
    destruct (CanFail c); [exact I|].
    destruct e as [msg [status|]|msg]; try exact H.
    destruct (isAllowed _ _); [exact I | exact H].
Qed.

Lemma loop_progressOnly c env s base evs st :
  incl evs (events env) ->
  progressOnly c env base (world st) ->
  match fst (loop c s st evs) with
  | Returned None => True
  | _ => progressOnly c env base (snd (loop c s st evs))
  end.
Proof.
  revert st. induction evs as [|ev evs IH]; intros st Hincl H; simpl.
  - exact H.
  - assert (Hev : In ev (events env)) by (apply Hincl; now left).
    pose proof (step_progressOnly c env s base st ev Hev H) as Hs.
    destruct (step c s st ev) as [st'|[e|] w'].
    + apply IH; [|exact Hs]. intros x Hx. apply Hincl. now right.
    + exact Hs.
    + exact I.
Qed.

Lemma Run_error_progressOnly c env w err wr :
  Run c env w = (Returned (Some err), wr) ->
  progressOnly c env (resp_body w) wr.
Proof.
  assert (H0 : forall w0, resp_body w0
                 = (resp_body w ++ [("Running command: " ++ Name c)%string])%list ->
               progressOnly c env (resp_body w) w0).
  { intros w0 E l Hin. rewrite E in Hin. apply in_app_or in Hin.
    destruct Hin as [Hin|[<-|[]]]; [now left | right; apply pl_running]. }
  unfold Run.
  destruct (StdoutPipe_err env);
    [intros E; inversion E; subst; now apply H0|].
  destruct (StderrPipe_err env);
    [intros E; inversion E; subst; now apply H0|].
  destruct (Start_err env);
    [intros E; inversion E; subst; now apply H0|].
  intros E.
  pose proof (loop_progressOnly c env (startTime_now env) (resp_body w)
                (events env) (loopEntry c env w) (incl_refl _)) as Hl.
  unfold loopEntry in Hl. rewrite E in Hl. apply Hl. apply H0. reflexivity.
Qed.

(** The last turn of a run: only the completion without error writes a
    line. *)
Lemma step_Return_body c s st ev r w' :
  step c s st ev = Return r w' ->
  (exists endTime,
     ev = Done None endTime /\ r = None
     /\ resp_body w'
        = (resp_body (world st)
             ++ [completedLine c
                   (time.String_
                      (time.Truncate (time.Sub endTime s) time.Second))])%list)
  \/ ((forall endTime, ev <> Done None endTime)
      /\ resp_body w' = resp_body (world st)).
Proof.
  destruct st as [term last w]; simpl.
  destruct ev as [line|year now kerr now'|err now]; simpl.
  - discriminate.
  - destruct (year =? 1).
    + destruct term; simpl; [discriminate|].
      destruct kerr; [|discriminate].
      intros E; inversion E; subst. right. split; [discriminate | reflexivity].
    + destruct (time.Second <? time.Sub now last); discriminate.
  - unfold onDone. destruct err as [e|].
    + intros E. right. split; [discriminate|].
      destruct (CanFail c); [inversion E; reflexivity|].
      destruct e as [msg [status|]|msg]; try (inversion E; reflexivity).
      destruct (isAllowed _ _); inversion E; reflexivity.
    + intros E; inversion E; subst. left. exists now. auto.
Qed.

Lemma Run_Returned_reaches c env w r wr :
  started env ->
  Run c env w = (Returned r, wr) ->
  exists pre st ev post,
    reaches c env w pre st ev post
    /\ step c (startTime_now env) st ev = Return r wr.
Proof.
  intros Hs E. rewrite (Run_started _ _ _ Hs) in E.
  destruct (loop_Returned_inv _ _ _ _ _ _ E)
    as (pre & ev & post & st & He & Hd & Hst).
  exists pre, st, ev, post. unfold reaches. auto.
Qed.

(** The completion arm always returns. *)
Lemma onDone_Return c s err endTime w st' :
  onDone c s err endTime w = Continue st' -> False.
Proof.
  unfold onDone. destruct err as [e|]; [|discriminate].
  destruct (CanFail c); [discriminate|].
  destruct e as [msg [status|]|msg]; try discriminate.
  destruct (isAllowed _ _); discriminate.
Qed.


Lemma Run_error_body c env w err wr :
  Run c env w = (Returned (Some err), wr) ->
  resp_body wr = (resp_body w ++ [("Running command: " ++ Name c)%string])%list
  \/ exists pre st ev post,
       reaches c env w pre st ev post
       /\ step c (startTime_now env) st ev = Return (Some err) wr
       /\ resp_body wr = resp_body (world st).
Proof.
  intros E.
  destruct (StdoutPipe_err env) as [e1|] eqn:E1;
    [unfold Run in E; rewrite E1 in E; inversion E; now left|].
  destruct (StderrPipe_err env) as [e2|] eqn:E2;
    [unfold Run in E; rewrite E1, E2 in E; inversion E; now left|].
  destruct (Start_err env) as [e3|] eqn:E3;
    [unfold Run in E; rewrite E1, E2, E3 in E; inversion E; now left|].
  right.
  destruct (Run_Returned_reaches c env w _ _ (conj E1 (conj E2 E3)) E)
    as (pre & st & ev & post & Hr & Hs).
  exists pre, st, ev, post. repeat split; try assumption; try apply Hr.
  destruct (step_Return_body _ _ _ _ _ _ Hs) as [(t & _ & Hn & _)|[_ Hb]];
    [discriminate | exact Hb].
Qed.


(** C2, as stated, fails on the run of a command that exits with status
    1: the handler ends the process with the text of the error in the log,
    and the only line of the response is the line that announces the
    command. *)
Lemma handler_error_counterexample :
  let result :=
    handler (Samples.request ["run"; "false"] "" Samples.env_exit1) world0 in
  result
    = (Fatal,
       log_Print
         (snd (Run Samples.false_ Samples.env_exit1
                 (committed
                    (log_Print world0
                       "Not a Pub/Sub invocation (no request body)."))))
         (Error (ErrExitStatus "0s" 1)),
       Some Samples.false_)
  /\ std_log (snd (fst result))
     = ["Not a Pub/Sub invocation (no request body).";
        "Command exited with status code in 0s: 1"]
  /\ resp_status (snd (fst result)) = Some 200
  /\ resp_body (snd (fst result)) = ["Running command: false"]
  /\ ~ In "Command exited with status code in 0s: 1"
         (resp_body (snd (fst result))).
Proof.
  repeat split. simpl. intros [H|[]]. discriminate H.
Qed.




(** ** Effects of a whole run *)

(** A property of the world that the five effects of the loop keep is
    kept by every turn.  A line is written with [writeProgress] only if
    output is shown or the line is one [Run] composes; a line goes to the
    standard-error logger alone only if output is not shown. *)
Section Effects.

Variable c : Command.
Variable Pw : World -> Prop.

Hypothesis keep_write :
  forall w line, Pw w -> ShowOutput c = true \/ ownLine c line ->
    Pw (writeProgress line w).
Hypothesis keep_println :
  forall w line, ShowOutput c = false -> Pw w -> Pw (StderrLogger_Println w line).
Hypothesis keep_stop : forall w, Pw w -> Pw (pollTimer_Stop w).
Hypothesis keep_kill : forall w, Pw w -> Pw (Process_Kill w).
Hypothesis keep_printf : forall w r, Pw w -> Pw (StdoutLogger_Printf w r).

Lemma step_effects s st ev :
  Pw (world st) ->
  match step c s st ev with
  | Continue st' => Pw (world st')
  | Return _ w' => Pw w'
  end.
Proof.
  intros H. destruct st as [term last w]; simpl in H.
  destruct ev as [line|year now kerr now'|err now]; simpl.
  - destruct (ShowOutput c) eqn:E.
    + apply keep_write; auto.
    + apply keep_println; auto.
  - destruct (year =? 1).
    + destruct term; simpl; [exact H|].
      destruct kerr; simpl.
      * apply keep_kill, keep_stop, H.
      * apply keep_write; [apply keep_kill, keep_stop, H|].
        right. apply own_timedOut.
    + destruct (time.Second <? time.Sub now last); simpl; [|exact H].
      apply keep_write; [exact H | right; apply own_waiting].
  - unfold onDone. destruct err as [e|].
    + destruct (CanFail c); [apply keep_printf, keep_stop, H|].
      destruct e as [msg [status|]|msg]; try apply keep_stop, H.
      destruct (isAllowed _ _);
        [apply keep_printf, keep_stop, H | apply keep_stop, H].
    + apply keep_write; [apply keep_stop, H | right; apply own_completed].
Qed.

Lemma loop_effects s evs st :
  Pw (world st) -> Pw (snd (loop c s st evs)).
Proof.
  apply (loop_invariant c s (fun st => Pw (world st)) (fun _ w => Pw w)).
  - intros st0 ev. apply step_effects.
  - auto.
Qed.

Lemma drain_effects s evs st st' :
  Pw (world st) -> drain c s st evs = Some st' -> Pw (world st').
Proof.
  apply (drain_invariant c s (fun st => Pw (world st))).
  intros st0 ev st1 H E.
  pose proof (step_effects s st0 ev H) as Hs. now rewrite E in Hs.
Qed.

Hypothesis keep_start : forall w, Pw w -> Pw (cmd_Start w).

Lemma Run_effects env w :
  Pw (writeProgress ("Running command: " ++ Name c) w) ->
  Pw (snd (Run c env w)).
Proof.
  intros H. unfold Run.
  destruct (StdoutPipe_err env); [now apply keep_printf|].
  destruct (StderrPipe_err env); [now apply keep_printf|].
  destruct (Start_err env); [now apply keep_start, keep_printf|].
  apply loop_effects. now apply keep_start, keep_printf.
Qed.

End Effects.


(** X2: when output is shown, the response and the standard-error log of
    the command receive the same lines in the same order during [Run]. *)
Theorem Run_mirrors_stderr c env w :
  ShowOutput c = true ->
  exists rest,
    mirrored w (snd (Run c env w))
      (("Running command: " ++ Name c)%string :: rest).
Proof.
  intros Hshow.
  apply (Run_effects c
           (fun w' => exists rest,
              mirrored w w' (("Running command: " ++ Name c)%string :: rest))).
  - intros w0 line (rest & Hb & Hl) _. exists (rest ++ [line])%list.
    unfold mirrored in *. simpl. rewrite Hb, Hl.
    split; now rewrite <- app_assoc.
  - intros w0 line Hf. congruence.
  - intros w0 H. exact H.
  - intros w0 H. exact H.
  - intros w0 r H. exact H.
  - intros w0 H. exact H.
  - exists []. unfold mirrored. simpl. split; reflexivity.
Qed.

Lemma Run_mirrors_stderr_witness :
  exists rest,
    mirrored world0 (snd (Run Samples.echo Samples.env_echo world0))
      ("Running command: echo" :: rest).
Proof.
  apply (Run_mirrors_stderr Samples.echo Samples.env_echo world0).
  reflexivity.
Defined.

(** X3: when output is not shown, no line of the process reaches the
    response: every line [Run] adds is one it composes itself (the
    announcing line, a still-waiting line, the timeout line or the
    completed line). *)
Theorem Run_hidden_output c env w :
  ShowOutput c = false ->
  forall line,
    In line (resp_body (snd (Run c env w))) ->
    In line (resp_body w) \/ ownLine c line.
Proof.
  intros Hshow.
  apply (Run_effects c
           (fun w' => forall line,
              In line (resp_body w') -> In line (resp_body w) \/ ownLine c line)).
  - intros w0 line H [Hs|Hown] l Hin; [congruence|].
    simpl in Hin. apply in_app_or in Hin.
    destruct Hin as [Hin|[<-|[]]]; [now apply H | now right].
  - intros w0 line _ H. exact H.
  - intros w0 H. exact H.
  - intros w0 H. exact H.
  - intros w0 r H. exact H.
  - intros w0 H. exact H.
  - intros l Hin. simpl in Hin. apply in_app_or in Hin.
    destruct Hin as [Hin|[<-|[]]]; [now left | right; apply own_running].
Qed.

Lemma Run_hidden_output_witness :
  resp_body (snd (Run MoreSamples.quiet MoreSamples.env_two_lines world0))
  = ["Running command: backup";
     "[Still waiting for command to complete: backup --- 2s]";
     "Command completed in 2s: backup"]
  /\ (In "Command completed in 2s: backup" (resp_body world0)
      \/ ownLine MoreSamples.quiet "Command completed in 2s: backup").
Proof.
  split; [reflexivity|].
  apply (Run_hidden_output MoreSamples.quiet MoreSamples.env_two_lines world0).
  - reflexivity.
  - simpl. right. right. left. reflexivity.
Defined.

(** X5: [cmd.Start] is called once if both pipes were obtained, whether
    the start succeeds or not, and never otherwise; the loop does not
    start anything. *)
Theorem Run_starts_once c env w :
  starts (snd (Run c env w))
  = match StdoutPipe_err env, StderrPipe_err env with
    | None, None => S (starts w)
    | _, _ => starts w
    end.
Proof.
  unfold Run.
  destruct (StdoutPipe_err env); [reflexivity|].
  destruct (StderrPipe_err env); [reflexivity|].
  destruct (Start_err env); [reflexivity|].
  apply (loop_effects c (fun w' => starts w' = S (starts w))); auto.
Qed.

(** ** The order of the output *)

Lemma subseq_nil_l {A : Type} (l : list A) : subseq [] l.
Proof.
  induction l as [|x l IH]; [apply subseq_nil | now apply subseq_skip].
Qed.

Lemma subseq_app_r {A : Type} (l1 l2 extra : list A) :
  subseq l1 l2 -> subseq l1 (l2 ++ extra)%list.
Proof.
  induction 1 as [|x l1 l2 _ IH|x l1 l2 _ IH]; simpl.
  - apply subseq_nil_l.
  - now apply subseq_keep.
  - now apply subseq_skip.
Qed.

Lemma step_Continue_body c s st ev st' :
  ShowOutput c = true ->
  step c s st ev = Continue st' ->
  exists added,
    resp_body (world st') = (resp_body (world st) ++ added)%list
    /\ subseq (outputLines [ev]) added.
Proof.
  intros Hshow. destruct st as [term last w]; simpl.
  destruct ev as [line|year now kerr now'|err now]; simpl.
  - rewrite Hshow. intros E; inversion E; subst; simpl.
    exists [line]. split; [reflexivity|]. apply subseq_keep, subseq_nil.
  - destruct (year =? 1).
    + destruct term; simpl.
      * intros E; inversion E; subst; simpl.
        exists []. split; [now rewrite app_nil_r | apply subseq_nil].
      * destruct kerr; [discriminate|].
        intros E; inversion E; subst; simpl.
        eexists. split; [reflexivity | apply subseq_nil_l].
    + destruct (time.Second <? time.Sub now last);
        intros E; inversion E; subst; simpl.
      * eexists. split; [reflexivity | apply subseq_nil_l].
      * exists []. split; [now rewrite app_nil_r | apply subseq_nil].
  - intros E. now apply onDone_Return in E.
Qed.

Lemma subseq_app {A : Type} (a1 a2 b1 b2 : list A) :
  subseq a1 b1 -> subseq a2 b2 -> subseq (a1 ++ a2)%list (b1 ++ b2)%list.
Proof.
  induction 1 as [|x l1 l2 _ IH|x l1 l2 _ IH]; intros H2; simpl.
  - exact H2.
  - apply subseq_keep. now apply IH.
  - apply subseq_skip. now apply IH.
Qed.

Lemma outputLines_cons ev evs :
  outputLines (ev :: evs) = (outputLines [ev] ++ outputLines evs)%list.
Proof. destruct ev; reflexivity. Qed.

Lemma drain_output_order c s :
  ShowOutput c = true ->
  forall evs st st',
    drain c s st evs = Some st' ->
    exists added,
      resp_body (world st') = (resp_body (world st) ++ added)%list
      /\ subseq (outputLines evs) added.
Proof.
  intros Hshow. induction evs as [|ev evs IH]; intros st st' H; simpl in H.
  - inversion H; subst. exists []. split; [now rewrite app_nil_r|].
    apply subseq_nil.
  - destruct (step c s st ev) as [st1|] eqn:E; [|discriminate].
    destruct (step_Continue_body _ _ _ _ _ Hshow E) as (a1 & Hb1 & Hs1).
    destruct (IH _ _ H) as (a2 & Hb2 & Hs2).
    exists (a1 ++ a2)%list. split.
    + now rewrite Hb2, Hb1, app_assoc.
    + rewrite outputLines_cons. now apply subseq_app.
Qed.

(** X6: when output is shown, the lines of the process appear in the
    response in the order in which the loop received them, after the
    announcing line; the lines [Run] writes itself come in between. *)
Theorem Run_output_in_order c env w pre st ev post r wr :
  ShowOutput c = true ->
  reaches c env w pre st ev post ->
  step c (startTime_now env) st ev = Return r wr ->
  exists rest,
    resp_body wr
    = (resp_body w ++ ("Running command: " ++ Name c)%string :: rest)%list
    /\ subseq (outputLines pre) rest.
Proof.
  intros Hshow (_ & _ & Hd) Hs.
  destruct (drain_output_order c _ Hshow _ _ _ Hd) as (added & Hb & Hsub).
  simpl in Hb.
  destruct (step_Return_body _ _ _ _ _ _ Hs) as [(t & _ & _ & Hw)|[_ Hw]];
    rewrite Hw, Hb, <- !app_assoc; simpl.
  - eexists. split; [reflexivity|]. now apply subseq_app_r.
  - exists added. auto.
Qed.

Lemma Run_output_in_order_witness :
  exists rest,
    resp_body (snd (Run Samples.echo MoreSamples.env_two_lines world0))
    = "Running command: echo" :: rest
    /\ subseq ["one"; "two"] rest.
Proof.
  apply (Run_output_in_order Samples.echo MoreSamples.env_two_lines world0
           [Output "one"; Tick 2021 2000000000 None 2000000100; Output "two"]
           (mkLoop false 2000000100
              (writeProgress "two"
                 (writeProgress
                    "[Still waiting for command to complete: echo --- 2s]"
                    (writeProgress "one"
                       (world (loopEntry Samples.echo
                                 MoreSamples.env_two_lines world0))))))
           (Done None 2500000000) [] None).
  - reflexivity.
  - repeat split; reflexivity.
  - reflexivity.
Defined.

Lemma stderr_log_grows c line :
  forall s evs st st',
    In line (stderr_log (world st)) ->
    drain c s st evs = Some st' ->
    In line (stderr_log (world st')).
Proof.
  intros s evs st st'.
  apply (drain_effects c (fun w => In line (stderr_log w))); auto.
  - intros w l H _. simpl. apply in_or_app. now left.
  - intros w l _ H. simpl. apply in_or_app. now left.
Qed.

(** X7: every line of the process that the loop receives is written to
    the standard-error log of the command, whether output is shown in the
    response or not. *)
Theorem Run_output_logged c env w pre st ev post line :
  reaches c env w pre st ev post ->
  In (Output line) pre ->
  In line (stderr_log (world st)).
Proof.
  intros (_ & _ & Hd). revert Hd.
  generalize (loopEntry c env w) as st0.
  induction pre as [|e pre IH]; intros st0 Hd Hin; [destruct Hin|].
  simpl in Hd.
  destruct (step c (startTime_now env) st0 e) as [st1|] eqn:E; [|discriminate].
  destruct Hin as [->|Hin].
  - apply (stderr_log_grows c line _ _ _ _) with (2 := Hd).
    destruct st0 as [term last w0]. simpl in E. inversion E; subst. simpl.
    destruct (ShowOutput c); simpl; apply in_or_app; right; now left.
  - now apply (IH st1).
Qed.

Lemma Run_output_logged_witness :
  In "one"
    (stderr_log
       (StderrLogger_Println
          (world (loopEntry MoreSamples.quiet MoreSamples.env_two_lines world0))
          "one")).
Proof.
  apply (Run_output_logged MoreSamples.quiet MoreSamples.env_two_lines world0
           [Output "one"]
           (mkLoop false 1000
              (StderrLogger_Println
                 (world (loopEntry MoreSamples.quiet
                           MoreSamples.env_two_lines world0))
                 "one"))
           (Tick 2021 2000000000 None 2000000100)
           [Output "two"; Done None 2500000000] "one").
  - repeat split; reflexivity.
  - left. reflexivity.
Defined.

(** ** Killing and stopping *)

Lemma step_no_deadline_kills c s st ev :
  isDeadline ev = false ->
  match step c s st ev with
  | Continue st' => kills (world st') = kills (world st)
  | Return _ w' => kills w' = kills (world st)
  end.
Proof.
  intros Hd. destruct st as [term last w].
  destruct ev as [line|year now kerr now'|err now]; simpl in *.
  - destruct (ShowOutput c); reflexivity.
  - rewrite Hd. destruct (time.Second <? time.Sub now last); reflexivity.
  - unfold onDone. step_cases.
Qed.

Lemma loop_no_deadline_kills c s evs : forall st,
  (forall ev, In ev evs -> isDeadline ev = false) ->
  kills (snd (loop c s st evs)) = kills (world st).
Proof.
  induction evs as [|ev evs IH]; intros st H; simpl; [reflexivity|].
  pose proof (step_no_deadline_kills c s st ev (H ev (or_introl eq_refl))) as Hs.
  destruct (step c s st ev) as [st'|r w'].
  - rewrite IH; [exact Hs|]. intros e He. apply H. now right.
  - exact Hs.
Qed.

(** X8: [Run] never kills the process on its own account before the tick
    of the deadline: in a run that receives no such tick,
    [cmd.Process.Kill] is not called. *)
Theorem Run_no_kill_without_deadline c env w :
  (forall ev, In ev (events env) -> isDeadline ev = false) ->
  kills (snd (Run c env w)) = kills w.
Proof.
  intros H. unfold Run.
  destruct (StdoutPipe_err env); [reflexivity|].
  destruct (StderrPipe_err env); [reflexivity|].
  destruct (Start_err env); [reflexivity|].
  now rewrite loop_no_deadline_kills.
Qed.

Lemma Run_no_kill_without_deadline_witness :
  kills (snd (Run Samples.echo MoreSamples.env_two_lines world0)) = 0%nat.
Proof.
  apply (Run_no_kill_without_deadline Samples.echo MoreSamples.env_two_lines
           world0).
  simpl. intros ev [<-|[<-|[<-|[<-|[]]]]]; reflexivity.
Defined.

Lemma step_stopsAre c s s0 st ev :
  stopsAre s0 st ->
  match step c s st ev with
  | Continue st' => stopsAre s0 st'
  | Return _ w' => ticker_stops w' = S (ticker_stops (world st))
  end.
Proof.
  unfold stopsAre. destruct st as [term last w]; simpl. intros H.
  destruct ev as [line|year now kerr now'|err now]; simpl.
  - destruct (ShowOutput c); exact H.
  - destruct (year =? 1).
    + destruct term; simpl; [exact H|].
      destruct kerr; simpl; [reflexivity | rewrite H; lia].
    + destruct (time.Second <? time.Sub now last); exact H.
  - unfold onDone. step_cases.
Qed.

(** X9: a run that entered the loop and returns has stopped its ticker:
    [pollTimer.Stop] was called at the turn that returns, and once before
    if the deadline had passed, so once or twice in all. *)
Theorem Run_stops_ticker c env w r wr :
  started env ->
  Run c env w = (Returned r, wr) ->
  (S (ticker_stops w) <= ticker_stops wr <= S (S (ticker_stops w)))%nat.
Proof.
  intros Hs E.
  destruct (Run_Returned_reaches _ _ _ _ _ Hs E)
    as (pre & st & ev & post & (_ & _ & Hd) & Hst).
  assert (Hinv : stopsAre (ticker_stops w) st).
  { apply (drain_invariant c (startTime_now env) (stopsAre (ticker_stops w)))
      with (3 := Hd).
    - intros st0 e st1 H0 E0.
      pose proof (step_stopsAre c (startTime_now env) _ st0 e H0) as H1.
      now rewrite E0 in H1.
    - unfold stopsAre. simpl. lia. }
  pose proof (step_stopsAre c (startTime_now env) _ st ev Hinv) as H1.
  rewrite Hst in H1. unfold stopsAre in Hinv.
  destruct (processTerminated st); lia.
Qed.

Lemma Run_stops_ticker_witness :
  (1 <= ticker_stops (snd (Run Samples.sleep Samples.env_timeout world0)) <= 2)%nat.
Proof.
  apply (Run_stops_ticker Samples.sleep Samples.env_timeout world0
           (Some (ErrExitStatus "1h0m0s" (-1)))).
  - repeat split; reflexivity.
  - reflexivity.
Defined.

Lemma step_idleTick c s st ev :
  idleTick st ev = true -> step c s st ev = Continue st.
Proof.
  unfold idleTick. destruct st as [term last w].
  destruct ev as [line|year now kerr now'|err now]; simpl.
  - rewrite andb_false_r. discriminate.
  - destruct (year =? 1); simpl.
    + rewrite andb_true_r, orb_false_r. now intros ->.
    + rewrite andb_false_r. simpl.
      now destruct (time.Second <? time.Sub now last).
  - rewrite andb_false_r. discriminate.
Qed.

(** X10: ticks on which there is nothing to do change nothing.  The loop
    passes over any number of ticks of the deadline once the run is
    marked terminated, and over ticks before the deadline that come
    within a second of the last still-waiting line: nothing is written,
    logged, killed or stopped, and the run goes on as if they had not
    been received. *)
Theorem loop_skips_idle_ticks c s st ticks rest :
  (forall ev, In ev ticks -> idleTick st ev = true) ->
  loop c s st (ticks ++ rest)%list = loop c s st rest.
Proof.
  intros H. apply loop_app.
  induction ticks as [|ev ticks IH]; simpl; [reflexivity|].
  rewrite (step_idleTick c s st ev (H ev (or_introl eq_refl))).
  apply IH. intros e He. apply H. now right.
Qed.

Lemma loop_skips_idle_ticks_witness :
  loop Samples.sleep 0 (mkLoop true 1000 world0)
    ([Tick 1 5 None 5; Tick 1 6 (Some "gone") 6; Tick 2021 7 None 7]
       ++ [Done None 9])%list
  = loop Samples.sleep 0 (mkLoop true 1000 world0) [Done None 9].
Proof.
  apply (loop_skips_idle_ticks Samples.sleep 0 (mkLoop true 1000 world0)).
  simpl. intros ev [<-|[<-|[<-|[]]]]; reflexivity.
Defined.

(** ** Errors of the start and of the wait *)

(** X11: if the process cannot be started, [Run] returns the start error
    without entering the loop, whatever events are pending: [Start] was
    called once, nothing is killed, no ticker is stopped, and the
    response holds the announcing line only. *)
Theorem Run_start_error c env w e :
  StdoutPipe_err env = None ->
  StderrPipe_err env = None ->
  Start_err env = Some e ->
  fst (Run c env w) = Returned (Some (ErrStart e))
  /\ Error (ErrStart e) = "error starting command: " ++ e
  /\ starts (snd (Run c env w)) = S (starts w)
  /\ kills (snd (Run c env w)) = kills w
  /\ ticker_stops (snd (Run c env w)) = ticker_stops w
  /\ resp_body (snd (Run c env w))
     = (resp_body w ++ [("Running command: " ++ Name c)%string])%list.
Proof.
  intros H1 H2 H3. unfold Run. rewrite H1, H2, H3. repeat split.
Qed.

Lemma Run_start_error_witness :
  fst (Run Samples.echo MoreSamples.env_nostart world0)
  = Returned (Some (ErrStart "exec: no such file or directory"))
  /\ Error (ErrStart "exec: no such file or directory")
     = "error starting command: exec: no such file or directory"
  /\ starts (snd (Run Samples.echo MoreSamples.env_nostart world0)) = 1%nat
  /\ kills (snd (Run Samples.echo MoreSamples.env_nostart world0)) = 0%nat
  /\ ticker_stops (snd (Run Samples.echo MoreSamples.env_nostart world0)) = 0%nat
  /\ resp_body (snd (Run Samples.echo MoreSamples.env_nostart world0))
     = ["Running command: echo"].
Proof.
  apply (Run_start_error Samples.echo MoreSamples.env_nostart world0
           "exec: no such file or directory"); reflexivity.
Defined.

(** X12: a completion error that carries no exit status (an error of the
    wait itself, or an exit error whose system status is not a wait
    status) makes [Run] return the generic failure with the text of that
    error, whatever the allowed exit codes are, unless failure is
    tolerated; nothing is written to the response at that turn. *)
Theorem Run_wait_error c env w pre st post e endTime :
  reaches c env w pre st (Done (Some e) endTime) post ->
  CanFail c = false ->
  (forall msg status, e <> ExitError msg (Some status)) ->
  fst (Run c env w)
  = Returned (Some (ErrFailed (commandDuration env endTime) (WaitError_Error e)))
  /\ Error (ErrFailed (commandDuration env endTime) (WaitError_Error e))
     = "Command failed in " ++ commandDuration env endTime ++ ": "
         ++ WaitError_Error e
  /\ resp_body (snd (Run c env w)) = resp_body (world st).
Proof.
  intros Hr Hc Hne.
  rewrite (Run_reaches _ _ _ _ _ _ _ Hr). simpl. unfold onDone. rewrite Hc.
  destruct e as [msg [status|]|msg]; [now elim (Hne msg status)| |];
    repeat split.
Qed.

Lemma Run_wait_error_witness :
  fst (Run Samples.echo MoreSamples.env_waitfail world0)
  = Returned (Some (ErrFailed "2s" "wait: no child processes"))
  /\ Error (ErrFailed "2s" "wait: no child processes")
     = "Command failed in 2s: wait: no child processes"
  /\ resp_body (snd (Run Samples.echo MoreSamples.env_waitfail world0))
     = ["Running command: echo"].
Proof.
  apply (Run_wait_error Samples.echo MoreSamples.env_waitfail world0 []
           (loopEntry Samples.echo MoreSamples.env_waitfail world0) []
           (OtherError "wait: no child processes") 2000000000).
  - repeat split; reflexivity.
  - reflexivity.
  - discriminate.
Defined.

(** X13: a process that did not exit by itself (it was ended by a signal)
    is classified under the status -1: [Run] returns the exit-status
    error for -1, and returns nil only if -1 is listed in the allowed
    exit codes. *)
Theorem Run_signalled_is_minus_one c env w pre st post msg status endTime :
  reaches c env w pre st
    (Done (Some (ExitError msg (Some status))) endTime) post ->
  CanFail c = false ->
  syscall.Exited status = false ->
  fst (Run c env w)
  = Returned
      (if isAllowed (-1) (AllowedExitCodes c) then None
       else Some (ErrExitStatus (commandDuration env endTime) (-1))).
Proof.
  intros Hr Hc Hx.
  rewrite (Run_reaches _ _ _ _ _ _ _ Hr). simpl. unfold onDone. rewrite Hc.
  unfold syscall.ExitStatus. rewrite Hx.
  now destruct (isAllowed (-1) (AllowedExitCodes c)).
Qed.

Lemma Run_signalled_is_minus_one_witness :
  fst (Run Samples.echo MoreSamples.env_signal world0)
  = Returned (Some (ErrExitStatus "2s" (-1))).
Proof.
  apply (Run_signalled_is_minus_one Samples.echo MoreSamples.env_signal world0
           [] (loopEntry Samples.echo MoreSamples.env_signal world0) []
           "signal: killed" 9 2000000000).
  - repeat split; reflexivity.
  - reflexivity.
  - reflexivity.
Defined.

(** X14: the text of an error of [Run] tells which of the six errors it
    is: errors of two different kinds never have the same text. *)
Theorem Error_text_tells_kind e1 e2 :
  kindOf e1 <> kindOf e2 -> Error e1 <> Error e2.
Proof.
  intros Hk H. apply Hk.
  destruct e1, e2; simpl in *; try reflexivity; discriminate H.
Qed.

Lemma Error_text_tells_kind_witness :
  Error (ErrExitStatus "0s" 1) <> Error (ErrFailed "0s" "exit status 1").
Proof.
  apply (Error_text_tells_kind (ErrExitStatus "0s" 1)
           (ErrFailed "0s" "exit status 1")).
  simpl. discriminate.
Defined.

(** ** The handler, case by case *)

Lemma ctxDone_loggedFrom env p w w0 :
  loggedFrom w w0 -> loggedFrom w (ctxDone env p w0).
Proof.
  intros H. unfold ctxDone. destruct (ctx_Done env) as [q|]; [|exact H].
  destruct (ClosePoint_eqb p q); [now apply logged_more | exact H].
Qed.

Lemma accepted_loggedFrom env w w0 :
  accepted env w = Some w0 -> loggedFrom w w0.
Proof.
  unfold accepted.
  destruct (List.length (os_Args env) =? 1)%nat; [discriminate|].
  destruct (negb (w_is_Flusher env)); [discriminate|].
  destruct (ReadAll env) as [body|e]; [|discriminate].
  destruct (0 <? String.length body)%nat.
  - destruct (json_Unmarshal env body); [discriminate|].
    intros E; inversion E; subst.
    apply ctxDone_loggedFrom, ctxDone_loggedFrom, logged_same.
  - intros E; inversion E; subst.
    apply ctxDone_loggedFrom, logged_more, ctxDone_loggedFrom, logged_same.
Qed.

Lemma accepted_handler env w w0 :
  accepted env w = Some w0 -> handler env w = serve env w0.
Proof.
  unfold accepted, handler.
  destruct (List.length (os_Args env) =? 1)%nat; [discriminate|].
  destruct (negb (w_is_Flusher env)); [discriminate|].
  destruct (ReadAll env) as [body|e]; [|discriminate].
  destruct (0 <? String.length body)%nat.
  - destruct (json_Unmarshal env body); [discriminate|].
    intros E; now inversion E.
  - intros E; now inversion E.
Qed.

Lemma handler_inv env w ex w' oc :
  handler env w = (ex, w', oc) ->
  (ex = Fatal /\ oc = None /\ w' = log_Print w "No command to run set!"
   /\ List.length (os_Args env) = 1%nat)
  \/ (ex = Finished /\ oc = None /\ List.length (os_Args env) <> 1%nat
      /\ exists w0,
           loggedFrom w w0 /\ w' = http_Error w0 "Bad Request" StatusBadRequest)
  \/ (List.length (os_Args env) <> 1%nat /\ w_is_Flusher env = true
      /\ exists w0,
           accepted env w = Some w0 /\ loggedFrom w w0
           /\ serve env w0 = (ex, w', oc)).
Proof.
  intros H.
  destruct (accepted env w) as [w0|] eqn:Ea.
  - right. right.
    rewrite (accepted_handler _ _ _ Ea) in H.
    pose proof (accepted_loggedFrom _ _ _ Ea) as Hl.
    unfold accepted in Ea.
    destruct (Nat.eqb_spec (List.length (os_Args env)) 1); [discriminate|].
    destruct (w_is_Flusher env); [|discriminate].
    repeat split; auto. exists w0. auto.
  - unfold accepted in Ea. unfold handler in H.
    destruct (Nat.eqb_spec (List.length (os_Args env)) 1) as [Hl|Hl].
    + inversion H; subst. left. auto.
    + right. left. destruct (w_is_Flusher env); simpl in *.
      * destruct (ReadAll env) as [body|e].
        -- destruct (0 <? String.length body)%nat; [|discriminate].
           destruct (json_Unmarshal env body); [|discriminate].
           inversion H; subst. repeat split; auto.
           eexists. split; [|reflexivity].
           apply ctxDone_loggedFrom, logged_more, ctxDone_loggedFrom,
             logged_same.
        -- inversion H; subst. repeat split; auto.
           eexists. split; [|reflexivity].
           apply ctxDone_loggedFrom, logged_more, ctxDone_loggedFrom,
             logged_same.
      * inversion H; subst. repeat split; auto.
        exists w. split; [apply logged_same | reflexivity].
Qed.

Lemma serve_args env :
  (if (2 <? List.length (os_Args env))%nat then skipn 2 (os_Args env) else [])
  = skipn 2 (os_Args env).
Proof.
  destruct (Nat.ltb_spec 2 (List.length (os_Args env))) as [_|Hle];
    [reflexivity|].
  symmetry. apply skipn_all2. exact Hle.
Qed.

(** What [serve] does once the command is known: it runs it on the
    committed response and ends as [Run] ended. *)
Lemma serve_Run env w0 name :
  nth_error (os_Args env) 1 = Some name ->
  serve env w0
  = let c := NewCommand name (skipn 2 (os_Args env)) in
    match Run c (run_env env) (committed w0) with
    | (Returned (Some err), wr) =>
        (Fatal, ctxDone env AfterFatal (log_Print wr (Error err)), Some c)
    | (Returned None, wr) => (Finished, wr, Some c)
    | (Waiting, wr) => (Blocked, wr, Some c)
    end.
Proof.
  intros Hn. unfold serve, committed. rewrite Hn, serve_args. reflexivity.
Qed.

Lemma serve_inv env w0 ex w' oc :
  serve env w0 = (ex, w', oc) ->
  (ex = Panicked /\ oc = None /\ w' = committed w0
   /\ nth_error (os_Args env) 1 = None)
  \/ exists c r wr,
       oc = Some c
       /\ Run c (run_env env) (committed w0) = (r, wr)
       /\ match r with
          | Returned (Some err) =>
              ex = Fatal
              /\ w' = ctxDone env AfterFatal (log_Print wr (Error err))
          | Returned None => ex = Finished /\ w' = wr
          | Waiting => ex = Blocked /\ w' = wr
          end.
Proof.
  destruct (nth_error (os_Args env) 1) as [name|] eqn:Hn.
  - rewrite (serve_Run _ _ _ Hn). cbv zeta.
    destruct (Run _ _ _) as [[[err|]|] wr] eqn:E;
      intros H; inversion H; subst; right;
      eexists; eexists; eexists; (split; [reflexivity|]);
      (split; [exact E|]); simpl; auto.
  - unfold serve, committed. rewrite Hn.
    intros H; inversion H; subst. left. auto.
Qed.

Lemma loggedFrom_response w w0 :
  loggedFrom w w0 ->
  resp_status w0 = resp_status w /\ resp_body w0 = resp_body w
  /\ resp_header w0 = resp_header w /\ starts w0 = starts w
  /\ kills w0 = kills w /\ stdout_log w0 = stdout_log w
  /\ stderr_log w0 = stderr_log w.
Proof.
  induction 1 as [|w0 m _ IH]; [repeat split | exact IH].
Qed.

Lemma ctxDone_response env p w :
  resp_status (ctxDone env p w) = resp_status w
  /\ resp_body (ctxDone env p w) = resp_body w
  /\ resp_header (ctxDone env p w) = resp_header w
  /\ starts (ctxDone env p w) = starts w
  /\ kills (ctxDone env p w) = kills w
  /\ stdout_log (ctxDone env p w) = stdout_log w
  /\ stderr_log (ctxDone env p w) = stderr_log w.
Proof.
  apply loggedFrom_response, ctxDone_loggedFrom, logged_same.
Qed.

Lemma Run_body_announces c env w :
  exists rest,
    resp_body (snd (Run c env w))
    = (resp_body w ++ ("Running command: " ++ Name c)%string :: rest)%list.
Proof.
  apply (Run_effects c
           (fun w' => exists rest,
              resp_body w'
              = (resp_body w ++ ("Running command: " ++ Name c)%string :: rest)%list));
    auto.
  - intros w0 line [rest Hb] _. exists (rest ++ [line])%list.
    simpl. rewrite Hb. now rewrite <- app_assoc.
  - now exists [].
Qed.

(** X15: once the handler has come to run a command, the response is
    committed: whatever the outcome of the run (nil, an error that ends
    the process, or still waiting), the status is 200, the transfer
    encoding is chunked, and the body begins with the line that announces
    the command. *)
Theorem handler_commits_200 env w ex w' c :
  handler env w = (ex, w', Some c) ->
  resp_status w = None ->
  resp_status w' = Some StatusOK
  /\ resp_header w'
     = ("Transfer-Encoding", "chunked")
         :: filter (fun kv => negb (String.eqb (fst kv) "Transfer-Encoding"))
              (resp_header w)
  /\ exists rest,
       resp_body w'
       = (resp_body w ++ ("Running command: " ++ Name c)%string :: rest)%list.
Proof.
  intros H Hfresh.
  destruct (handler_inv _ _ _ _ _ H)
    as [(_ & Hoc & _)|[(_ & Hoc & _)|(_ & _ & w0 & _ & Hw0 & Hs)]];
    try discriminate.
  destruct (loggedFrom_response _ _ Hw0) as (Hst & Hb & Hh & _).
  destruct (serve_inv _ _ _ _ _ Hs) as [(_ & Hoc & _)|(c' & r & wr & Hoc & HR & Hr)];
    [discriminate|].
  inversion Hoc; subst c'.
  assert (Hs200 : resp_status wr = Some StatusOK).
  { replace wr with (snd (Run c (run_env env) (committed w0))) by now rewrite HR.
    apply Run_status. simpl. now rewrite Hst, Hfresh. }
  assert (Hhd : resp_header wr = resp_header (committed w0)).
  { replace wr with (snd (Run c (run_env env) (committed w0))) by now rewrite HR.
    apply Run_header. }
  destruct (Run_body_announces c (run_env env) (committed w0)) as [rest Hrest].
  rewrite HR in Hrest. simpl in Hrest, Hhd. rewrite Hb in Hrest. rewrite Hh in Hhd.
  destruct r as [[err|]|]; destruct Hr as [_ ->];
    try (destruct (ctxDone_response env AfterFatal (log_Print wr (Error err)))
           as (-> & -> & -> & _));
    simpl;
    (split; [exact Hs200|]); (split; [exact Hhd|]); exists rest; exact Hrest.
Qed.

Lemma handler_commits_200_witness :
  exists rest,
    resp_body
      (snd (fst (handler
                   (Samples.request ["run"; "false"] "{}" Samples.env_exit1)
                   world0)))
    = "Running command: false" :: rest.
Proof.
  destruct (handler_commits_200
              (Samples.request ["run"; "false"] "{}" Samples.env_exit1)
              world0 Fatal
              (snd (fst (handler
                           (Samples.request ["run"; "false"] "{}"
                              Samples.env_exit1)
                           world0)))
              Samples.false_) as (_ & _ & H).
  - reflexivity.
  - reflexivity.
  - exact H.
Defined.

(** X16: when the handler runs no command, no process is started or
    killed and the loggers of the command are not used.  Then either the
    service was given no command and the process ends with the response
    untouched, or the request was refused with 400 and the one line
    ["Bad Request"], or [os.Args] is empty. *)
Theorem handler_without_command env w ex w' :
  handler env w = (ex, w', None) ->
  resp_status w = None ->
  (starts w' = starts w /\ kills w' = kills w
   /\ stdout_log w' = stdout_log w /\ stderr_log w' = stderr_log w)
  /\ ((ex = Fatal /\ List.length (os_Args env) = 1%nat
       /\ resp_status w' = None /\ resp_body w' = resp_body w)
      \/ (ex = Finished
          /\ resp_status w' = Some StatusBadRequest
          /\ resp_body w' = (resp_body w ++ ["Bad Request"])%list)
      \/ (ex = Panicked /\ os_Args env = [])).
Proof.
  intros H Hfresh.
  destruct (handler_inv _ _ _ _ _ H)
    as [(-> & _ & -> & Hl)|[(-> & _ & _ & w0 & Hw0 & ->)
                           |(Hl & _ & w0 & _ & Hw0 & Hs)]].
  - split; [repeat split|]. left. simpl. auto.
  - destruct (loggedFrom_response _ _ Hw0) as (Hst & Hb & _ & H1 & H2 & H3 & H4).
    split; [simpl; auto|]. right. left. simpl. rewrite Hst, Hfresh, Hb. auto.
  - destruct (loggedFrom_response _ _ Hw0) as (Hst & Hb & _ & H1 & H2 & H3 & H4).
    destruct (serve_inv _ _ _ _ _ Hs)
      as [(-> & _ & -> & Hn)|(c' & r & wr & Hoc & _)]; [|discriminate].
    split; [simpl; auto|]. right. right. split; [reflexivity|].
    destruct (os_Args env) as [|a [|b l]]; simpl in *;
      [reflexivity | congruence | discriminate].
Qed.

Lemma handler_without_command_witness :
  let w' :=
    snd (fst (handler (Samples.request ["run"; "echo"] "x" Samples.env_echo)
                world0)) in
  (starts w' = 0%nat /\ kills w' = 0%nat
   /\ stdout_log w' = [] /\ stderr_log w' = [])
  /\ ((Finished = Fatal /\ 2%nat = 1%nat
       /\ resp_status w' = None /\ resp_body w' = [])
      \/ (Finished = Finished
          /\ resp_status w' = Some 400
          /\ resp_body w' = ["Bad Request"])
      \/ (Finished = Panicked /\ ["run"; "echo"] = [])).
Proof.
  apply (handler_without_command
           (Samples.request ["run"; "echo"] "x" Samples.env_echo) world0
           Finished); reflexivity.
Defined.

(** X17: the handler does not index [os.Args] out of range as long as
    [os.Args] holds at least the name of the program. *)
Theorem handler_never_panics env w :
  os_Args env <> [] ->
  fst (fst (handler env w)) <> Panicked.
Proof.
  intros Hne Hp.
  destruct (handler env w) as [[ex w'] oc] eqn:E. simpl in Hp. subst ex.
  destruct (handler_inv _ _ _ _ _ E)
    as [(Hx & _)|[(Hx & _)|(Hl & _ & w0 & _ & _ & Hs)]]; try discriminate.
  destruct (serve_inv _ _ _ _ _ Hs)
    as [(_ & _ & _ & Hn)|(c' & r & wr & _ & _ & Hr)].
  - destruct (os_Args env) as [|a [|b l]]; simpl in *;
      [congruence | congruence | discriminate].
  - destruct r as [[err|]|]; destruct Hr as [Hx _]; discriminate.
Qed.

Lemma handler_never_panics_witness :
  fst (fst (handler (Samples.request ["run"] "" Samples.env_echo) world0))
  <> Panicked.
Proof.
  apply (handler_never_panics (Samples.request ["run"] "" Samples.env_echo)
           world0).
  simpl. discriminate.
Defined.


(** ** The durations in the messages *)

Lemma digit_not_dot d : 0 <= d <= 9 -> Ascii.eqb "." (strconv.digit d) = false.
Proof.
  intros H. apply digit_cases in H.
  repeat (destruct H as [->|H]; [reflexivity|]). now subst.
Qed.

Lemma hasChar_fmtDigits fuel : forall v buf,
  hasChar "." (strconv.fmtDigits fuel v buf) = hasChar "." buf.
Proof.
  induction fuel as [|fuel IH]; intros v buf; simpl; [reflexivity|].
  destruct (0 <? v); [|reflexivity].
  rewrite IH. cbn [hasChar].
  rewrite digit_not_dot; [reflexivity|].
  pose proof (Z.mod_pos_bound v 10). lia.
Qed.

Lemma hasChar_fmtInt v buf :
  hasChar "." (strconv.fmtInt v buf) = hasChar "." buf.
Proof.
  unfold strconv.fmtInt. destruct (v =? 0); [reflexivity|].
  apply hasChar_fmtDigits.
Qed.

Lemma fmtFracLoop_whole prec : forall v buf,
  v mod 10 ^ Z.of_nat prec = 0 ->
  time.fmtFracLoop prec v false buf = (buf, v / 10 ^ Z.of_nat prec, false).
Proof.
  induction prec as [|prec IH]; intros v buf Hv.
  - simpl. now rewrite Z.div_1_r.
  - rewrite Nat2Z.inj_succ, Z.pow_succ_r in * by lia.
    set (p := 10 ^ Z.of_nat prec) in *.
    assert (Hp : 0 < p) by (apply Z.pow_pos_nonneg; lia).
    assert (Hq : v = 10 * (p * (v / (10 * p)))).
    { pose proof (Z.div_mod v (10 * p)). lia. }
    assert (H10 : v mod 10 = 0).
    { rewrite Hq, Z.mul_comm. apply Z.mod_mul. lia. }
    assert (Hd : v / 10 = p * (v / (10 * p))).
    { rewrite Hq at 1. rewrite Z.mul_comm. apply Z.div_mul. lia. }
    cbn [time.fmtFracLoop]. rewrite H10. simpl.
    rewrite IH.
    + rewrite Z.div_div by lia. reflexivity.
    + fold p. rewrite Hd, Z.mul_comm. apply Z.mod_mul. lia.
Qed.

Lemma String_whole_seconds t :
  Z.rem t time.Second = 0 -> hasChar "." (time.String_ t) = false.
Proof.
  intros Hr.
  assert (Hu : Z.abs t mod 10 ^ Z.of_nat 9 = 0).
  { pose proof (Z.rem_abs t time.Second ltac:(discriminate)) as H1.
    rewrite Hr in H1. change (Z.abs time.Second) with time.Second in H1.
    rewrite Z.rem_mod_nonneg in H1;
      [exact H1 | apply Z.abs_nonneg | reflexivity]. }
  unfold time.String_.
  set (u := Z.abs t) in *.
  assert (Hsign : forall body,
            hasChar "." body = false ->
            hasChar "." (if t <? 0 then String "-" body else body) = false).
  { intros body Hb. destruct (t <? 0); [simpl|]; exact Hb. }
  apply Hsign.
  destruct (Z.ltb_spec u time.Second) as [Hlt|Hge].
  - assert (u = 0).
    { change (10 ^ Z.of_nat 9) with time.Second in Hu.
      rewrite Z.mod_small in Hu; [exact Hu|].
      split; [apply Z.abs_nonneg | exact Hlt]. }
    rewrite H. reflexivity.
  - unfold time.fmtFrac. rewrite (fmtFracLoop_whole 9 u "s" Hu).
    destruct (0 <? u / 10 ^ Z.of_nat 9 / 60).
    + destruct (0 <? u / 10 ^ Z.of_nat 9 / 60 / 60);
        rewrite ?hasChar_fmtInt; cbn [hasChar];
        rewrite ?hasChar_fmtInt; cbn [hasChar];
        rewrite ?hasChar_fmtInt; reflexivity.
    + rewrite hasChar_fmtInt. reflexivity.
Qed.

(** X19: the elapsed times [Run] puts into its messages (the completed
    line, the errors and the log records of the completion, and the
    still-waiting line) are printed without a fraction: the text of a
    duration truncated to seconds has no decimal point. *)
Theorem elapsed_has_no_fraction env endTime c d :
  hasChar "." (commandDuration env endTime) = false
  /\ hasChar "." (time.String_ (time.Truncate d time.Second)) = false
  /\ hasChar "."
       (time.String_ (time.Truncate MaxElapsedTime time.Minute)) = false
  /\ stillWaitingLine c d
     = "[Still waiting for command to complete: " ++ Name c ++ " --- "
         ++ time.String_ (time.Truncate d time.Second) ++ "]".
Proof.
  repeat split; apply String_whole_seconds, Truncate_whole; reflexivity.
Qed.

(** X20: the elapsed time shown is the time between the reading of the
    clock before the start and the reading at the completion, rounded
    towards zero to whole seconds: it has the sign of the real one, is
    never longer, and falls short of it by less than a second. *)
Theorem elapsed_rounds_down env endTime :
  let real := time.Sub endTime (startTime_now env) in
  let shown := time.Truncate real time.Second in
  commandDuration env endTime = time.String_ shown
  /\ Z.abs shown <= Z.abs real
  /\ Z.abs (real - shown) < time.Second
  /\ 0 <= shown * real
  /\ time.Truncate shown time.Second = shown.
Proof.
  intros real shown. split; [reflexivity|].
  assert (Hs : 0 < time.Second) by reflexivity.
  assert (Ht : shown = real - Z.rem real time.Second) by reflexivity.
  assert (Hpos : 0 <= real ->
                 0 <= Z.rem real time.Second < time.Second
                 /\ Z.rem real time.Second <= real).
  { intros H. split; [now apply Z.rem_bound_pos | now apply Z.rem_le]. }
  assert (Hneg : real <= 0 ->
                 - time.Second < Z.rem real time.Second <= 0
                 /\ real <= Z.rem real time.Second).
  { intros H.
    pose proof (Z.rem_le (- real) time.Second ltac:(lia) Hs) as Hle.
    pose proof (Z.rem_bound_pos (- real) time.Second ltac:(lia) Hs) as Hb.
    rewrite Z.rem_opp_l in Hle, Hb by discriminate. lia. }
  split; [destruct (Z.le_ge_cases 0 real); lia|].
  split; [destruct (Z.le_ge_cases 0 real); lia|].
  split.
  { destruct (Z.le_ge_cases 0 real) as [H|H].
    - apply Z.mul_nonneg_nonneg; lia.
    - apply Z.mul_nonpos_nonpos; lia. }
  unfold time.Truncate at 1.
  change (time.Second <=? 0) with false. cbv iota.
  unfold shown. rewrite Truncate_whole by exact Hs. lia.
Qed.

(** ** The log of the command *)

Lemma step_Continue_stdout c s st ev st' :
  step c s st ev = Continue st' ->
  stdout_log (world st') = stdout_log (world st).
Proof.
  destruct st as [term last w]. simpl.
  destruct ev as [line|year now kerr now'|err now]; simpl.
  - intros E; inversion E; subst; simpl. now destruct (ShowOutput c).
  - destruct (year =? 1).
    + destruct term; simpl; [intros E; now inversion E|].
      destruct kerr; [discriminate | intros E; now inversion E].
    + destruct (time.Second <? time.Sub now last);
        intros E; now inversion E.
  - intros E. now apply onDone_Return in E.
Qed.

Lemma step_Return_stdout c s st ev r w' :
  step c s st ev = Return r w' ->
  stdout_log w' = stdout_log (world st)
  \/ (r = None /\ exists m,
        stdout_log w' = (stdout_log (world st) ++ [LogText m])%list).
Proof.
  destruct st as [term last w]. simpl.
  destruct ev as [line|year now kerr now'|err now]; simpl.
  - discriminate.
  - destruct (year =? 1).
    + destruct term; simpl; [discriminate|].
      destruct kerr; [intros E; inversion E; now left | discriminate].
    + destruct (time.Second <? time.Sub now last); discriminate.
  - unfold onDone. destruct err as [e|].
    + destruct (CanFail c).
      * intros E; inversion E; subst. right. split; [reflexivity|].
        eexists. reflexivity.
      * destruct e as [msg [status|]|msg];
          try (intros E; inversion E; now left).
        destruct (isAllowed _ _); intros E; inversion E; subst;
          [right; split; [reflexivity|]; eexists; reflexivity | now left].
    + intros E; inversion E; now left.
Qed.

Lemma loop_stdout c s evs : forall st,
  stdout_log (snd (loop c s st evs)) = stdout_log (world st)
  \/ (fst (loop c s st evs) = Returned None
      /\ exists m,
           stdout_log (snd (loop c s st evs))
           = (stdout_log (world st) ++ [LogText m])%list).
Proof.
  induction evs as [|ev evs IH]; intros st; simpl; [now left|].
  destruct (step c s st ev) as [st'|r w'] eqn:E.
  - rewrite <- (step_Continue_stdout _ _ _ _ _ E). apply IH.
  - simpl. destruct (step_Return_stdout _ _ _ _ _ _ E) as [H|[-> H]]; auto.
Qed.

(** X21: on the standard-output logger of the command [Run] leaves the
    record of the command line and at most one more record, the warning
    of a tolerated failure or the note of an allowed exit status; that
    second record is written only when [Run] returns nil, so a run that
    ends in an error logs nothing there about the error. *)
Theorem Run_stdout_log c env w :
  stdout_log (snd (Run c env w))
  = (stdout_log w ++ [LogRunningAs (Name c) (Args c)])%list
  \/ (fst (Run c env w) = Returned None
      /\ exists m,
           stdout_log (snd (Run c env w))
           = (stdout_log w ++ [LogRunningAs (Name c) (Args c); LogText m])%list).
Proof.
  unfold Run.
  destruct (StdoutPipe_err env); [now left|].
  destruct (StderrPipe_err env); [now left|].
  destruct (Start_err env); [now left|].
  match goal with |- context [loop c ?s ?st ?evs] =>
    destruct (loop_stdout c s evs st) as [H|[Hr [m H]]]
  end.
  - left. rewrite H. reflexivity.
  - right. split; [exact Hr|]. exists m. rewrite H. simpl.
    now rewrite <- app_assoc.
Qed.

(** ** What tolerance covers *)

(** X23: tolerance of failure covers the completion of the process
    only.  With [CanFail] set, [Run] still returns the errors of the
    pipes, of the start and of a failed kill, and never an exit-status
    error or a generic failure. *)
Theorem CanFail_covers_completion_only c env w err :
  CanFail c = true ->
  fst (Run c env w) = Returned (Some err) ->
  kindOf err <> ExitedWithStatus /\ kindOf err <> WaitFailed.
Proof.
  intros Hc H.
  destruct (Run c env w) as [o wr] eqn:E. simpl in H. subst o.
  assert (Hloop : started env -> kindOf err = TerminateFailed).
  { intros Hs.
    destruct (Run_Returned_reaches _ _ _ _ _ Hs E)
      as (pre & st & ev & post & _ & Hstep).
    destruct st as [term last w1].
    destruct ev as [line|year now kerr now'|e now]; simpl in Hstep.
    - discriminate.
    - destruct (year =? 1).
      + destruct term; simpl in Hstep; [discriminate|].
        destruct kerr; [inversion Hstep; reflexivity | discriminate].
      + destruct (time.Second <? time.Sub now last); discriminate.
    - unfold onDone in Hstep. rewrite Hc in Hstep.
      destruct e; discriminate. }
  unfold Run in E. unfold started in Hloop.
  destruct (StdoutPipe_err env);
    [inversion E; subst; split; discriminate|].
  destruct (StderrPipe_err env);
    [inversion E; subst; split; discriminate|].
  destruct (Start_err env);
    [inversion E; subst; split; discriminate|].
  rewrite Hloop by auto. split; discriminate.
Qed.

Lemma CanFail_covers_completion_only_witness :
  kindOf (ErrTerminate "os: process already finished") <> ExitedWithStatus
  /\ kindOf (ErrTerminate "os: process already finished") <> WaitFailed.
Proof.
  apply (CanFail_covers_completion_only Samples.tolerant
           Samples.env_killfail world0
           (ErrTerminate "os: process already finished")); reflexivity.
Defined.

(** ** The server *)

(** X22: [main] never asks for an address without a port: it listens on
    [":" ++ PORT], or on [":8080"] when [PORT] is empty or unset, logs
    the port it listens on, and logs that it fell back to the default
    exactly when it did. *)
Theorem main_listens_on_port env w :
  let port := if String.eqb (PORT env) "" then "8080" else PORT env in
  fst (main env w) = ":" ++ port
  /\ port <> ""
  /\ fst (main env w) <> ":"
  /\ std_log (snd (main env w))
     = (std_log w
          ++ "Starting Cloud Run function..."
          :: (if String.eqb (PORT env) "" then ["Defaulting to port 8080"]
              else [])
          ++ [("Listening on port " ++ port)%string;
              ListenAndServe_err env])%list.
Proof.
  unfold main. destruct (String.eqb_spec (PORT env) "") as [E|E]; simpl.
  - repeat split; try discriminate. now rewrite <- !app_assoc.
  - repeat split.
    + exact E.
    + destruct (PORT env); [congruence | discriminate].
    + now rewrite <- !app_assoc.
Qed.

(** ** What the handler makes of a run *)

Lemma Run_std_log c env w : std_log (snd (Run c env w)) = std_log w.
Proof.
  apply (Run_effects c (fun w' => std_log w' = std_log w)); auto.
Qed.

Lemma Run_starts_count c env w :
  starts (snd (Run c env w))
  = match StdoutPipe_err env, StderrPipe_err env with
    | None, None => S (starts w)
    | _, _ => starts w
    end.
Proof.
  unfold Run.
  destruct (StdoutPipe_err env); [reflexivity|].
  destruct (StderrPipe_err env); [reflexivity|].
  destruct (Start_err env); [reflexivity|].
  apply (loop_effects c (fun w' => starts w' = S (starts w))); auto.
Qed.

(** The request is accepted exactly when a command is configured, the
    response can be flushed, and the body was read and is empty or
    parses. *)
Lemma accepted_iff env w :
  (exists w0, accepted env w = Some w0)
  <-> List.length (os_Args env) <> 1%nat
      /\ w_is_Flusher env = true
      /\ exists body,
           ReadAll env = inl body
           /\ (body = "" \/ json_Unmarshal env body = None).
Proof.
  unfold accepted.
  destruct (Nat.eqb_spec (List.length (os_Args env)) 1) as [Hl|Hl].
  { split; [intros [w0 H]; discriminate | intros (H & _); contradiction]. }
  destruct (w_is_Flusher env); simpl.
  2:{ split; [intros [w0 H]; discriminate | intros (_ & H & _); discriminate]. }
  destruct (ReadAll env) as [body|e].
  2:{ split; [intros [w0 H]; discriminate
             | intros (_ & _ & b & H & _); discriminate]. }
  destruct body as [|a body]; simpl.
  - split; [|eauto]. intros _. repeat split; auto. exists "". auto.
  - destruct (json_Unmarshal env (String a body)) as [e|] eqn:Ej.
    + split; [intros [w0 H]; discriminate|].
      intros (_ & _ & b & Hb & [H|H]); inversion Hb; subst;
        [discriminate | congruence].
    + split; [|eauto]. intros _. repeat split; auto.
      exists (String a body). auto.
Qed.

(** The end of [handler] and the response it leaves follow the end of
    [Run] and the response [Run] leaves. *)
Lemma serve_follows_Run env w0 name :
  nth_error (os_Args env) 1 = Some name ->
  let c := NewCommand name (skipn 2 (os_Args env)) in
  let run := Run c (run_env env) (committed w0) in
  exists w',
    serve env w0 = (exitOf (fst run), w', Some c)
    /\ resp_status w' = resp_status (snd run)
    /\ resp_header w' = resp_header (snd run)
    /\ resp_body w' = resp_body (snd run)
    /\ starts w' = starts (snd run)
    /\ kills w' = kills (snd run).
Proof.
  intros Hn c run. rewrite (serve_Run _ _ _ Hn). cbv zeta.
  fold c. fold run. destruct run as [[[err|]|] wr]; simpl.
  - eexists. split; [reflexivity|].
    destruct (ctxDone_response env AfterFatal (log_Print wr (Error err)))
      as (-> & -> & -> & -> & -> & _).
    repeat split.
  - eexists. repeat split.
  - eexists. repeat split.
Qed.

(** C2 (amended): whenever the handler accepts a request and the run of
    its command ends in an error, the handler ends the process with
    [log.Fatal]: the text of the error is written to the log of the
    process, after the records already there and followed at most by the
    record of the closed connection, and nothing is written to the
    response for it.  The response keeps the status 200 it was given
    before the run; its body is the body [Run] left, which is the body as
    it was when the last turn of [Run] began (or, for an error before the
    loop, the old body and the line that announces the command), and each
    of its lines is an old line, the announcing line, an output line of
    the process, a still-waiting line or the timeout line. *)
Theorem handler_error_goes_to_log env w w0 name err wr :
  accepted env w = Some w0 ->
  nth_error (os_Args env) 1 = Some name ->
  resp_status w = None ->
  Run (NewCommand name (skipn 2 (os_Args env))) (run_env env) (committed w0)
    = (Returned (Some err), wr) ->
  let c := NewCommand name (skipn 2 (os_Args env)) in
  let w' := ctxDone env AfterFatal (log_Print wr (Error err)) in
  handler env w = (Fatal, w', Some c)
  /\ (exists tail,
        std_log w' = (std_log w0 ++ Error err :: tail)%list
        /\ (tail = []
            \/ tail = ["Client closed connection, command terminating."]))
  /\ resp_body w' = resp_body wr
  /\ resp_status w' = Some StatusOK
  /\ resp_header w'
     = ("Transfer-Encoding", "chunked")
         :: filter (fun kv => negb (String.eqb (fst kv) "Transfer-Encoding"))
              (resp_header w)
  /\ progressOnly c (run_env env) (resp_body w) w'
  /\ (resp_body w'
      = (resp_body w ++ [("Running command: " ++ Name c)%string])%list
      \/ exists pre st ev post,
           reaches c (run_env env) (committed w0) pre st ev post
           /\ step c (startTime_now (run_env env)) st ev
              = Return (Some err) wr
           /\ resp_body w' = resp_body (world st)).
Proof.
  intros Ha Hn Hfresh HR c w'.
  destruct (loggedFrom_response _ _ (accepted_loggedFrom _ _ _ Ha))
    as (Hst & Hb & Hh & _).
  destruct (ctxDone_response env AfterFatal (log_Print wr (Error err)))
    as (Es & Eb & Eh & _).
  fold w' in Es, Eb, Eh. simpl in Es, Eb, Eh.
  assert (Hwr : wr = snd (Run c (run_env env) (committed w0)))
    by (unfold c; now rewrite HR).
  split.
  { rewrite (accepted_handler _ _ _ Ha), (serve_Run _ _ _ Hn). cbv zeta.
    now rewrite HR. }
  split.
  { assert (Hlog : std_log wr = std_log w0).
    { rewrite Hwr, Run_std_log. reflexivity. }
    unfold w', ctxDone.
    destruct (ctx_Done env) as [[| |]|]; simpl; rewrite Hlog;
      try (exists []; split; [reflexivity | now left]).
    eexists. split; [now rewrite <- app_assoc | now right]. }
  split; [exact Eb|].
  split.
  { rewrite Es, Hwr. apply Run_status. simpl. now rewrite Hst, Hfresh. }
  split.
  { rewrite Eh, Hwr, Run_header. simpl. now rewrite Hh. }
  split.
  { intros line Hin. rewrite Eb in Hin.
    pose proof (Run_error_progressOnly _ _ _ _ _ HR) as Hp.
    simpl in Hp. rewrite Hb in Hp. now apply Hp. }
  rewrite Eb.
  destruct (Run_error_body _ _ _ _ _ HR) as [H|H].
  - left. simpl in H. now rewrite H, Hb.
  - right. exact H.
Qed.

Lemma handler_error_goes_to_log_witness :
  let env := Samples.request ["run"; "false"] "" Samples.env_exit1 in
  let w0 := log_Print world0 "Not a Pub/Sub invocation (no request body)." in
  let wr := snd (Run Samples.false_ Samples.env_exit1 (committed w0)) in
  let w' := log_Print wr "Command exited with status code in 0s: 1" in
  handler env world0 = (Fatal, w', Some Samples.false_)
  /\ std_log w'
     = ["Not a Pub/Sub invocation (no request body).";
        "Command exited with status code in 0s: 1"]
  /\ resp_body w' = ["Running command: false"]
  /\ resp_status w' = Some 200.
Proof.
  intros env w0 wr w'.
  destruct (handler_error_goes_to_log env world0 w0 "false"
              (ErrExitStatus "0s" 1) wr)
    as (A & _ & B & C & _).
  - reflexivity.
  - reflexivity.
  - reflexivity.
  - reflexivity.
  - split; [exact A|]. split; [reflexivity|]. split; [reflexivity | exact C].
Defined.

(** C10 (amended): in a service that was given a command
    ([len(os.Args)] is not 1), a request whose body is not empty and does
    not parse as JSON is answered with 400 Bad Request, and no command is
    built or started.  A request with an empty body, on a response that
    can be flushed, is only logged as not being a Pub/Sub invocation and
    the run proceeds as for any other request: the response is committed
    with status 200 and chunked encoding, the command built from
    [os.Args] is run on it (its announcing line is written, [cmd.Start]
    is called once the pipes are there), and the handler ends as [Run]
    ends. *)
Theorem handler_body env w :
  List.length (os_Args env) <> 1%nat ->
  resp_status w = None ->
  (forall body e,
     ReadAll env = inl body -> body <> "" ->
     json_Unmarshal env body = Some e ->
     exists w',
       handler env w = (Finished, w', None)
       /\ resp_status w' = Some StatusBadRequest
       /\ resp_body w' = (resp_body w ++ ["Bad Request"])%list
       /\ starts w' = starts w
       /\ stdout_log w' = stdout_log w)
  /\ (forall name,
        w_is_Flusher env = true -> ReadAll env = inl "" ->
        nth_error (os_Args env) 1 = Some name ->
        let c := NewCommand name (skipn 2 (os_Args env)) in
        let w0 :=
          ctxDone env AfterBody
            (log_Print (ctxDone env AtSpawn w)
               "Not a Pub/Sub invocation (no request body).") in
        let run := Run c (run_env env) (committed w0) in
        In "Not a Pub/Sub invocation (no request body)." (std_log w0)
        /\ handler env w
           = match run with
             | (Returned (Some err), wr) =>
                 (Fatal, ctxDone env AfterFatal (log_Print wr (Error err)),
                  Some c)
             | (Returned None, wr) => (Finished, wr, Some c)
             | (Waiting, wr) => (Blocked, wr, Some c)
             end
        /\ exists w',
             handler env w = (exitOf (fst run), w', Some c)
             /\ resp_status w' = Some StatusOK
             /\ resp_header w'
                = ("Transfer-Encoding", "chunked")
                    :: filter
                         (fun kv =>
                            negb (String.eqb (fst kv) "Transfer-Encoding"))
                         (resp_header w)
             /\ (exists rest,
                   resp_body w'
                   = (resp_body w
                        ++ ("Running command: " ++ name)%string :: rest)%list)
             /\ starts w'
                = match StdoutPipe_err (run_env env),
                        StderrPipe_err (run_env env) with
                  | None, None => S (starts w)
                  | _, _ => starts w
                  end).
Proof.
  intros Hargs Hfresh.
  apply Nat.eqb_neq in Hargs. split.
  - intros body e Hbody Hne Hjson. unfold handler. rewrite Hargs.
    destruct (w_is_Flusher env); simpl.
    + rewrite Hbody, (String_length_pos _ Hne), Hjson.
      eexists. split; [reflexivity|].
      unfold ctxDone. destruct (ctx_Done env) as [[| |]|]; simpl;
        rewrite Hfresh; auto.
    + eexists. split; [reflexivity|]. simpl. rewrite Hfresh. auto.
  - intros name Hfl Hbody Hname c w0 run.
    assert (Ha : accepted env w = Some w0).
    { unfold accepted. rewrite Hargs, Hfl, Hbody. reflexivity. }
    destruct (loggedFrom_response _ _ (accepted_loggedFrom _ _ _ Ha))
      as (Hst & Hb & Hh & Hs & _).
    split.
    { unfold w0, ctxDone. destruct (ctx_Done env) as [[| |]|]; simpl;
        apply in_or_app; simpl; auto.
      left. apply in_or_app. simpl. auto. }
    split.
    { rewrite (accepted_handler _ _ _ Ha), (serve_Run _ _ _ Hname).
      reflexivity. }
    destruct (serve_follows_Run env w0 name Hname)
      as (w' & E & Es & Eh & Eb & Est & _).
    fold c run in E, Es, Eh, Eb, Est.
    exists w'. split; [now rewrite (accepted_handler _ _ _ Ha)|].
    split.
    { rewrite Es. apply Run_status. simpl. now rewrite Hst, Hfresh. }
    split.
    { rewrite Eh. unfold run. rewrite Run_header. simpl. now rewrite Hh. }
    split.
    { destruct (Run_body_announces c (run_env env) (committed w0))
        as [rest Hrest].
      exists rest. rewrite Eb. fold run in Hrest. rewrite Hrest.
      simpl. now rewrite Hb. }
    rewrite Est. unfold run. rewrite Run_starts_count. simpl.
    now rewrite Hs.
Qed.

Lemma handler_body_witness :
  (exists w',
     handler (Samples.request ["run"; "echo"; "hello"] "x" Samples.env_echo)
       world0 = (Finished, w', None)
     /\ resp_status w' = Some 400
     /\ resp_body w' = ["Bad Request"]
     /\ starts w' = 0%nat
     /\ stdout_log w' = [])
  /\ (exists w',
        handler (Samples.request ["run"; "echo"; "hello"] "" Samples.env_echo)
          world0 = (Finished, w', Some Samples.echo)
        /\ resp_status w' = Some 200
        /\ resp_header w' = [("Transfer-Encoding", "chunked")]
        /\ (exists rest, resp_body w' = "Running command: echo" :: rest)
        /\ starts w' = 1%nat).
Proof.
  split.
  - destruct (handler_body
                (Samples.request ["run"; "echo"; "hello"] "x" Samples.env_echo)
                world0) as [A _].
    + simpl. lia.
    + reflexivity.
    + apply (A "x" "invalid character 'x' looking for beginning of value").
      * reflexivity.
      * discriminate.
      * reflexivity.
  - destruct (handler_body
                (Samples.request ["run"; "echo"; "hello"] "" Samples.env_echo)
                world0) as [_ B].
    + simpl. lia.
    + reflexivity.
    + destruct (B "echo") as (_ & _ & E).
      * reflexivity.
      * reflexivity.
      * reflexivity.
      * exact E.
Defined.

(** C10, as stated, fails on two requests.  In a service that was
    started without a command, the first statement of the handler ends
    the process: a request whose body does not parse gets no 400 and no
    response at all.  And on a response that cannot be flushed, a
    request with an empty body is refused with 400 and no command is
    run. *)
Lemma handler_body_counterexample :
  let env :=
    mkHandlerEnv ["long-cloud-run"] true (inl "x") Samples.parse None
      Samples.env_echo in
  let env' :=
    mkHandlerEnv ["long-cloud-run"; "echo"] false (inl "") Samples.parse None
      Samples.env_echo in
  json_Unmarshal env "x"
  = Some "invalid character 'x' looking for beginning of value"
  /\ handler env world0
     = (Fatal, log_Print world0 "No command to run set!", None)
  /\ resp_status (snd (fst (handler env world0))) = None
  /\ resp_body (snd (fst (handler env world0))) = []
  /\ handler env' world0
     = (Finished, http_Error world0 "Bad Request" StatusBadRequest, None)
  /\ resp_status (snd (fst (handler env' world0))) = Some 400
  /\ starts (snd (fst (handler env' world0))) = 0%nat.
Proof. repeat split. Qed.

(** ** The ends of the handler *)

(** X18: when the handler has run a command, its end is the end of
    [Run].  It returns normally only if [Run] returned nil, and then the
    run ended at a turn that handled a completion without error or an
    exit error of status 0; if [Run] returned an error, whichever it is,
    the handler ends the process; and while [Run] waits the handler
    waits. *)
Theorem handler_finishes_on_clean_exit env w ex w' c :
  handler env w = (ex, w', Some c) ->
  exists w0 r wr,
    accepted env w = Some w0
    /\ Run c (run_env env) (committed w0) = (r, wr)
    /\ ex = exitOf r
    /\ match r with
       | Returned None =>
           w' = wr
           /\ exists pre st ev post,
                reaches c (run_env env) (committed w0) pre st ev post
                /\ step c (startTime_now (run_env env)) st ev = Return None wr
                /\ cleanCompletion ev
       | Returned (Some err) =>
           w' = ctxDone env AfterFatal (log_Print wr (Error err))
       | Waiting => w' = wr
       end.
Proof.
  intros H.
  destruct (handler_command _ _ _ _ _ H) as [_ Hc].
  destruct (handler_inv _ _ _ _ _ H)
    as [(_ & Hoc & _)|[(_ & Hoc & _)|(_ & _ & w0 & Ha & _ & Hs)]];
    try discriminate.
  destruct (serve_inv _ _ _ _ _ Hs)
    as [(_ & Hoc & _)|(c' & r & wr & Hoc & HR & Hr)]; [discriminate|].
  inversion Hoc; subst c'.
  exists w0, r, wr. split; [exact Ha|]. split; [exact HR|].
  destruct r as [[err|]|]; destruct Hr as [-> ->];
    (split; [reflexivity|]); try reflexivity.
  split; [reflexivity|].
  assert (Hst : started (run_env env)).
  { unfold Run in HR. unfold started.
    destruct (StdoutPipe_err (run_env env)); [discriminate|].
    destruct (StderrPipe_err (run_env env)); [discriminate|].
    destruct (Start_err (run_env env)); [discriminate|]. auto. }
  destruct (Run_Returned_reaches _ _ _ _ _ Hst HR)
    as (pre & st & ev & post & Hreach & Hstep).
  exists pre, st, ev, post. split; [exact Hreach|]. split; [exact Hstep|].
  destruct st as [term last w1].
  destruct ev as [line|year now kerr now'|err now]; simpl in Hstep.
  - discriminate.
  - destruct (year =? 1).
    + destruct term; simpl in Hstep; [discriminate|].
      destruct kerr; discriminate.
    + destruct (time.Second <? time.Sub now last); discriminate.
  - destruct err as [e|]; [|left; eauto].
    right. unfold onDone in Hstep. rewrite Hc in Hstep. simpl in Hstep.
    destruct e as [msg [status|]|msg]; try discriminate.
    destruct (Z.eqb_spec (syscall.ExitStatus status) 0) as [E0|_];
      [|discriminate].
    exists msg, status, now. auto.
Qed.

Lemma handler_finishes_on_clean_exit_witness :
  exists w0 r wr,
    accepted (Samples.request ["run"; "false"] "" Samples.env_exit1) world0
    = Some w0
    /\ Run Samples.false_ Samples.env_exit1 (committed w0) = (r, wr)
    /\ Fatal = exitOf r.
Proof.
  destruct (handler_finishes_on_clean_exit
              (Samples.request ["run"; "false"] "" Samples.env_exit1) world0
              Fatal
              (snd (fst (handler
                           (Samples.request ["run"; "false"] ""
                              Samples.env_exit1)
                           world0)))
              Samples.false_) as (w0 & r & wr & A & B & C & _).
  - reflexivity.
  - exists w0, r, wr. auto.
Defined.

(** ** What a run leaves alone *)

(** X4: on a response that is already committed, as it is whenever the
    handler calls it, [Run] does not write to the log of the process,
    does not touch the headers and does not change the status. *)
Theorem Run_leaves_log_and_headers c env w code :
  resp_status w = Some code ->
  std_log (snd (Run c env w)) = std_log w
  /\ resp_header (snd (Run c env w)) = resp_header w
  /\ resp_status (snd (Run c env w)) = Some code.
Proof.
  intros H. split; [|split].
  - apply (Run_effects c (fun w' => std_log w' = std_log w)); auto.
  - apply (Run_effects c (fun w' => resp_header w' = resp_header w)); auto.
  - now apply Run_status.
Qed.

Lemma Run_leaves_log_and_headers_witness :
  std_log (snd (Run Samples.echo Samples.env_echo (committed world0))) = []
  /\ resp_header (snd (Run Samples.echo Samples.env_echo (committed world0)))
     = [("Transfer-Encoding", "chunked")]
  /\ resp_status (snd (Run Samples.echo Samples.env_echo (committed world0)))
     = Some 200.
Proof.
  apply (Run_leaves_log_and_headers Samples.echo Samples.env_echo
           (committed world0) 200).
  reflexivity.
Defined.
